(** * gopm [get]: the recursive resolver/downloader of [cmd/get.go]

    A shallow embedding of [downloadPackage], [downloadPackages] and
    [getPackages], with the package-level variables of the file
    ([downloadCache], [skipCache], [downloadCount], [failConut]) and
    [setting.LocalNodes] threaded as an explicit state.  The packages the
    file calls into ([modules/doc], [modules/log], [modules/setting],
    [com], [goconfig], [os], [path]) are not part of the embedded source:
    what they compute is taken through the interface [Env], over an
    abstract type of file-system/network states. *)

From Stdlib Require Import ZArith Lia.
From stdpp Require Import base strings gmap list.

#[local] Set Warnings "-clear-no-such-hyp".

Local Open Scope string_scope.
Local Open Scope list_scope.

(** ** Go's [int]

    [downloadCount] and [failConut] are Go [int]s: 64-bit two's complement
    on the usual targets, and [++] wraps around. *)

Module GoInt.

Definition min_int : Z := - 2 ^ 63.
Definition max_int : Z := 2 ^ 63 - 1.

Definition wrap (z : Z) : Z := (z - min_int) mod 2 ^ 64 + min_int.

(** [c++] *)
Definition incr (c : Z) : Z := wrap (c + 1).

End GoInt.

(** The string ["\t"]. *)
Definition tab : string := String (Ascii.ascii_of_nat 9) "".

(** ** goconfig's [ConfigFile]

    Both [setting.LocalNodes] and a loaded gopmfile are [*goconfig.ConfigFile]:
    a store of values by section and key.  [MustValue] gives the empty string
    for a key that is not there. *)

Abbreviation ConfigFile := (gmap (string * string) string).

Definition MustValue (c : ConfigFile) (section key : string) : string :=
  default "" (c !! (section, key)).

Definition SetValue (c : ConfigFile) (section key value : string) : ConfigFile :=
  <[(section, key) := value]> c.

(** ** [doc.Node] *)

Inductive RevisionType : Set := BRANCH | COMMIT | TAG.

(** The fields of [doc.Node] that [get.go] reads or writes. *)
Record Node : Set := mkNode {
  ImportPath : string;
  RootPath : string;
  Type_ : RevisionType;
  Value : string;
  Revision : string;
  IsGetDeps : bool;
  IsGetDepsOnly : bool;
  InstallPath : string;
  InstallGopath : string
}.

Definition with_IsGetDepsOnly (b : bool) (n : Node) : Node :=
  mkNode (ImportPath n) (RootPath n) (Type_ n) (Value n) (Revision n)
         (IsGetDeps n) b (InstallPath n) (InstallGopath n).

Definition with_Revision (r : string) (n : Node) : Node :=
  mkNode (ImportPath n) (RootPath n) (Type_ n) (Value n) r
         (IsGetDeps n) (IsGetDepsOnly n) (InstallPath n) (InstallGopath n).

(** [n.Type, n.Value = t, v] *)
Definition with_version (tv : RevisionType * string) (n : Node) : Node :=
  mkNode (ImportPath n) (RootPath n) (fst tv) (snd tv) (Revision n)
         (IsGetDeps n) (IsGetDepsOnly n) (InstallPath n) (InstallGopath n).

(** Modelled from the spec: [IsEmptyVal] of [modules/doc] is not among
    the sources embedded here; the spec's [isUnpinned()] is "Branch, empty
    value". *)
Definition IsEmptyVal (n : Node) : bool :=
  match Type_ n with
  | BRANCH => bool_decide (Value n = "")
  | _ => false
  end.

(** Modelled from the spec: [IsFixed] of [modules/doc] is not among the
    sources embedded here; the spec's [isFixed()] is "kind in {Tag, Commit},
    or Branch with non-empty value". *)
Definition IsFixed (n : Node) : bool :=
  match Type_ n with
  | BRANCH => negb (bool_decide (Value n = ""))
  | _ => true
  end.

(** ** [cli.Context]: the flags [get.go] asks for *)

Record Ctx : Set := mkCtx {
  download : bool;
  update : bool;
  local : bool;
  gopath : bool;
  remote : bool;
  verbose : bool;
  strict : bool   (* the global flag, [ctx.GlobalBool("strict")] *)
}.

(** ** Calls to the [log] package, in the order they are made *)

Inductive LogLine : Set :=
| Message (hl msg : string)
| Error (hl msg : string)
| Trace (format arg : string)
| Log (format arg : string)
| Success (title hl msg : string)
| LogCounts (format : string) (downloaded failed : Z).

(** ** The collaborators

    [W] is the state of everything outside the process: the file system
    (shared repository, GOPATH) and the remote hosts.  An [error] is its
    message; [None] is [nil].  The collaborators act on [W] and on the node
    they are given; they do not touch the variables of package [cmd], nor
    [setting.LocalNodes]. *)

Class Env (W : Type) := {
  (* pure helpers of [modules/doc], [cmd] and [path] *)
  IsValidRemotePath : string -> bool;
  isSubpackage : string -> string -> bool;
  GetRootPath : string -> string;
  installPathOf : string -> RevisionType -> string -> string;
  installGopathOf : string -> string;
  VerString : Node -> string;
  validPkgInfo : string -> RevisionType * string;
  GOPMFILE : string;
  Join : string -> string -> string;
  (* reads of the file system *)
  IsExist : W -> Node -> bool;
  HasVcs : W -> Node -> bool;
  GetVcsName : W -> string -> string;
  IsFile : W -> string -> bool;
  loadGopmfile : W -> string -> ConfigFile;
  GetImports : W -> string -> string -> string -> bool -> list string;
  (* effects; a method on [*Node] gives the node back as it left it *)
  UpdateByVcs : W -> Node -> string -> W * Node * option string;
  Download : W -> Ctx -> Node -> W * Node * list string * option string;
  RemoveAll : W -> string -> W;
  CopyToGopath : W -> Node -> W
}.

Section Get.

Context {W : Type} {E : Env W}.

(** Modelled from the spec: [doc.NewNode] is not among the sources
    embedded here.  The spec: a node is "constructed from (importPath,
    versionKind, versionValue, shouldRecurseDeps); derives rootPath via a
    pluggable root-path deriver, and both install locations from rootPath +
    version", and "is created ... with no resolved revision". *)
Definition NewNode (importPath : string) (tp : RevisionType) (val : string)
    (isGetDeps : bool) : Node :=
  let root := GetRootPath importPath in
  mkNode importPath root tp val "" isGetDeps false
         (installPathOf root tp val) (installGopathOf root).

(** ** The state of a run *)

Record State : Type := mkState {
  downloadCache : gset string;   (* [map[string]bool], only ever set to true *)
  skipCache : gset string;
  downloadCount : Z;
  failConut : Z;
  LocalNodes : ConfigFile;       (* [setting.LocalNodes] *)
  savedNodes : ConfigFile;       (* what [setting.SaveLocalNodes] last wrote *)
  world : W;
  logs : list LogLine;
  calls : list (Node * bool)     (* history, see below *)
}.

(** [calls] is not a variable of the program: it keeps, in order, each call
    of [downloadPackage] made so far, as the node it was given and whether
    it returned a node ([true]) or [nil] ([false]). *)

Definition add_log (l : LogLine) (s : State) : State :=
  mkState (downloadCache s) (skipCache s) (downloadCount s) (failConut s)
          (LocalNodes s) (savedNodes s) (world s) (logs s ++ [l]) (calls s).

Definition set_world (w : W) (s : State) : State :=
  mkState (downloadCache s) (skipCache s) (downloadCount s) (failConut s)
          (LocalNodes s) (savedNodes s) w (logs s) (calls s).

Definition set_LocalNodes (c : ConfigFile) (s : State) : State :=
  mkState (downloadCache s) (skipCache s) (downloadCount s) (failConut s)
          c (savedNodes s) (world s) (logs s) (calls s).

(** [failConut++] *)
Definition incr_failConut (s : State) : State :=
  mkState (downloadCache s) (skipCache s) (downloadCount s)
          (GoInt.incr (failConut s))
          (LocalNodes s) (savedNodes s) (world s) (logs s) (calls s).

(** [downloadCount++] *)
Definition incr_downloadCount (s : State) : State :=
  mkState (downloadCache s) (skipCache s) (GoInt.incr (downloadCount s))
          (failConut s)
          (LocalNodes s) (savedNodes s) (world s) (logs s) (calls s).

(** The first two statements of [downloadPackage]: the log line and
    [downloadCache[n.RootPath] = true]. *)
Definition begin_download (n : Node) (s : State) : State :=
  mkState ({[RootPath n]} ∪ downloadCache s) (skipCache s) (downloadCount s)
          (failConut s)
          (LocalNodes s) (savedNodes s) (world s)
          (logs s ++ [Message "" ("Downloading package: " +:+ VerString n)])
          (calls s).

Definition add_call (n : Node) (ok : bool) (s : State) : State :=
  mkState (downloadCache s) (skipCache s) (downloadCount s) (failConut s)
          (LocalNodes s) (savedNodes s) (world s) (logs s)
          (calls s ++ [(n, ok)]).

(** [if !skipCache[root] { skipCache[root] = true; log.Trace(format, label) }] *)
Definition note_skip (format : string) (n : Node) (s : State) : State :=
  if bool_decide (RootPath n ∈ skipCache s) then s
  else
    add_log (Trace format (VerString n))
      (mkState (downloadCache s) ({[RootPath n]} ∪ skipCache s)
               (downloadCount s) (failConut s)
               (LocalNodes s) (savedNodes s) (world s) (logs s) (calls s)).

(** The root paths [downloadPackage] was called on, in order. *)
Definition call_roots (s : State) : list string :=
  map (fun c => RootPath c.1) (calls s).

(** Every root [downloadPackage] was called on is in [downloadCache], and
    none was given to it twice. *)
Definition once_per_root (s : State) : Prop :=
  NoDup (call_roots s) /\ forall r, r ∈ call_roots s -> r ∈ downloadCache s.

(** ** [downloadPackage] *)

(** What the three branches of the fetch decision leave: the world, the
    node, the imports and the error. *)
Definition fetch (ctx : Ctx) (n : Node) (s : State)
    : W * Node * list string * option string :=
  let vcs := GetVcsName (world s) (InstallGopath n) in
  if update ctx && (gopath ctx || local ctx) && (0 <? String.length vcs)%nat then
    let '(w, n', err) := UpdateByVcs (world s) n vcs in
    (w, n',
     GetImports w (ImportPath n') (RootPath n') (InstallGopath n') false, err)
  else if IsGetDepsOnly n then
    (world s, n,
     GetImports (world s) (ImportPath n) (RootPath n) (InstallPath n) false,
     None)
  else
    let n1 :=
      if IsExist (world s) n
      then with_Revision (MustValue (LocalNodes s) (RootPath n) "value") n
      else n in
    Download (world s) ctx n1.

(** [if err != nil { ... return nil, nil }], for the error [e], the world
    [w] and the node [n'] the fetch left. *)
Definition fail_download (e : string) (w : W) (n' : Node) (s : State) : State :=
  let s := set_world w s in
  let s := add_log (Error "get" ("Fail to download pakage: " +:+ ImportPath n')) s in
  let s := add_log (Error "" (tab +:+ e)) s in
  let s := incr_failConut s in
  set_world (RemoveAll (world s) (InstallPath n')) s.

(** What follows the fetch, from [if err != nil]: [s] is the state and [r]
    what the fetch left.  The result is the state, the node as the call
    left it, and the two values the Go function returns: the node or [nil],
    and the imports. *)
Definition conclude (n : Node) (s : State)
    (r : W * Node * list string * option string)
    : State * Node * option Node * list string :=
  let '(w, n', imports, err) := r in
  match err with
  | Some e => (add_call n false (fail_download e w n' s), n', None, [])
  | None =>
      (add_call n true (set_world w s), n', Some n',
       if IsGetDeps n' then imports else [])
  end.

Definition downloadPackage (ctx : Ctx) (n : Node) (s : State)
    : State * Node * option Node * list string :=
  let s := begin_download n s in
  conclude n s (fetch ctx n s).

(** ** [downloadPackages] *)

(** [nodes[i]] of the inner loop, for the [name] of the outer loop and
    [imp = imports[i]]: a fresh branch node for [name], its version taken
    from the gopmfile's entry for [imp] when there is one. *)
Definition build_child (ctx : Ctx) (gf : option ConfigFile) (name imp : string)
    : Node :=
  let c := NewNode name BRANCH "" (negb (download ctx)) in
  match gf with
  | None => c
  | Some g =>
      let v := MustValue g "deps" imp in
      if (0 <? String.length v)%nat then with_version (validPkgInfo v) c else c
  end.

(** [nodes := make([]*doc.Node, len(imports)); for i := range nodes { ... }] *)
Definition build_children (ctx : Ctx) (gf : option ConfigFile) (name : string)
    (imports : list string) : list Node :=
  map (build_child ctx gf name) imports.

(** [for _, name := range imports { ... downloadPackages(target, ctx, nodes) }],
    over the names still to come; [rec] is the recursive call. *)
Fixpoint walk_imports (rec : list Node -> State -> option State) (ctx : Ctx)
    (n : Node) (imports names : list string) (s : State) : option State :=
  match names with
  | [] => Some s
  | name :: rest =>
      let gfPath := Join (InstallPath n) GOPMFILE in
      let '(s1, gf) :=
        if IsFile (world s) gfPath
        then (add_log (Log "Found gopmfile: %s" (VerString n)) s,
              Some (loadGopmfile (world s) gfPath))
        else (s, None) in
      match rec (build_children ctx gf name imports) s1 with
      | Some s2 => walk_imports rec ctx n imports rest s2
      | None => None
      end
  end.

(** The end of the loop body, for a node that [downloadPackage] returned. *)
Definition record_success (ctx : Ctx) (nod : Node) (s : State) : State :=
  let s := add_log (Success "SUCC" "GET" (VerString nod)) s in
  let s := incr_downloadCount s in
  let s :=
    if IsEmptyVal nod && (0 <? String.length (Revision nod))%nat
    then set_LocalNodes
           (SetValue (LocalNodes s) (RootPath nod) "value" (Revision nod)) s
    else s in
  if (gopath ctx || local ctx) && negb (HasVcs (world s) nod)
  then set_world (CopyToGopath (world s) nod) s
  else s.

(** [n.IsGetDepsOnly = true] when the node is fixed and installed. *)
Definition mark_deps_only (n : Node) (s : State) : Node :=
  if IsFixed n && IsExist (world s) n then with_IsGetDepsOnly true n else n.

(** The rejection of an invalid import path. *)
Definition reject (n : Node) (s : State) : State :=
  incr_failConut
    (add_log (Error "download" ("Skipped invalid package: " +:+ VerString n)) s).

(** [setting.LocalNodes.SetValue(n.RootPath, "value", "")] unless updating. *)
Definition placeholder (ctx : Ctx) (n : Node) (s : State) : State :=
  if update ctx then s
  else set_LocalNodes (SetValue (LocalNodes s) (RootPath n) "value" "") s.

(** The loop body from the call of [downloadPackage] on, given what the
    call returned: the children are walked, then a node that was returned
    is recorded. *)
Definition finish_turn (rec : list Node -> State -> option State) (ctx : Ctx)
    (r : State * Node * option Node * list string) : option State :=
  let '(s1, n1, nod, imports) := r in
  match walk_imports rec ctx n1 imports imports s1 with
  | None => None
  | Some s2 =>
      match nod with
      | None => Some s2
      | Some nod => Some (record_success ctx nod s2)
      end
  end.

(** The tests of the loop body that come before the call of
    [downloadPackage]: [true] when [n] gets as far as the call. *)
Definition reaches_download (target : string) (ctx : Ctx) (n : Node)
    (s : State) : bool :=
  negb (bool_decide (ImportPath n = "C"))
  && IsValidRemotePath (ImportPath n)
  && negb (isSubpackage (RootPath n) target)
  && negb (bool_decide (RootPath (mark_deps_only n s) ∈ downloadCache s))
  && negb (negb (update ctx) && IsExist (world s) (mark_deps_only n s)).

(** One turn of [for _, n := range nodes]. *)
Definition visit (rec : list Node -> State -> option State) (target : string)
    (ctx : Ctx) (n : Node) (s : State) : option State :=
  if bool_decide (ImportPath n = "C") then Some s
  else if negb (IsValidRemotePath (ImportPath n)) then Some (reject n s)
  else if isSubpackage (RootPath n) target then Some s
  else
    let n := mark_deps_only n s in
    if bool_decide (RootPath n ∈ downloadCache s)
    then Some (note_skip "Skipped downloaded package: %s" n s)
    else if negb (update ctx) && IsExist (world s) n then
      let s := note_skip "Skipped installed package: %s" n s in
      Some (if gopath ctx || local ctx
            then set_world (CopyToGopath (world s) n) s
            else s)
    else
      finish_turn rec ctx (downloadPackage ctx n (placeholder ctx n s)).

Fixpoint walk (rec : list Node -> State -> option State) (target : string)
    (ctx : Ctx) (nodes : list Node) (s : State) : option State :=
  match nodes with
  | [] => Some s
  | n :: rest =>
      match visit rec target ctx n s with
      | Some s' => walk rec target ctx rest s'
      | None => None
      end
  end.

(** The recursion of [downloadPackages] follows the import graph the
    collaborators report, which need not be finite: [fuel] bounds the depth
    of nested calls, and [None] says it was not enough. *)
Fixpoint downloadPackages (fuel : nat) (target : string) (ctx : Ctx)
    (nodes : list Node) (s : State) : option State :=
  match fuel with
  | O => None
  | S fuel' => walk (downloadPackages fuel' target ctx) target ctx nodes s
  end.

(** Every import the collaborators report has its root in [U]. *)
Definition imports_within (U : gset string) : Prop :=
  (forall w c n name, name ∈ (Download w c n).1.2 -> GetRootPath name ∈ U) /\
  (forall w ip root dir ex name,
     name ∈ GetImports w ip root dir ex -> GetRootPath name ∈ U).

(** [rec] returns, with a larger [downloadCache], on nodes with roots in
    [U] whenever fewer than [fuel] roots of [U] are not yet in
    [downloadCache]. *)
Definition returns_within (U : gset string) (fuel : nat)
    (rec : list Node -> State -> option State) : Prop :=
  forall nodes s,
    (forall n, n ∈ nodes -> RootPath n ∈ U) ->
    size (U ∖ downloadCache s) < fuel ->
    exists s', rec nodes s = Some s' /\ downloadCache s ⊆ downloadCache s'.

(** The fetches leave the root path of the node as it was. *)
Definition fetch_keeps_root : Prop :=
  (forall w c n, RootPath (Download w c n).1.1.2 = RootPath n) /\
  (forall w n vcs, RootPath (UpdateByVcs w n vcs).1.2 = RootPath n).

(** The log lines of rejected import paths, and the calls of
    [downloadPackage] that returned [nil]. *)
Definition is_rejection (l : LogLine) : bool :=
  match l with
  | Error hl _ => bool_decide (hl = "download")
  | _ => false
  end.

Definition rejections (l : list LogLine) : nat :=
  length (List.filter is_rejection l).

Definition failed_calls (cs : list (Node * bool)) : nat :=
  length (List.filter (fun c => negb c.2) cs).

(** [failConut] is the number of rejections and failed downloads so far. *)
Definition failures_counted (s : State) : Prop :=
  failConut s
  = GoInt.wrap (Z.of_nat (rejections (logs s) + failed_calls (calls s))).

(** The record holds the empty revision for the root of every failed call. *)
Definition placeholders_kept (s : State) : Prop :=
  forall n, (n, false) ∈ calls s ->
            LocalNodes s !! (RootPath n, "value") = Some "".

(** ** [getPackages] *)

(** Modelled from the spec: [setting.SaveLocalNodes] is not among the
    sources embedded here; the spec: "persist all Local Record updates in
    one atomic save". *)
Definition SaveLocalNodes (s : State) : State :=
  mkState (downloadCache s) (skipCache s) (downloadCount s) (failConut s)
          (LocalNodes s) (LocalNodes s) (world s) (logs s) (calls s).

(** The second component is the argument of [os.Exit] when it is called,
    and [None] when [getPackages] returns to its caller. *)
Definition getPackages (fuel : nat) (target : string) (ctx : Ctx)
    (nodes : list Node) (s : State) : option (State * option Z) :=
  match downloadPackages fuel target ctx nodes s with
  | None => None
  | Some s =>
      let s := SaveLocalNodes s in
      let s := add_log (LogCounts "%d package(s) downloaded, %d failed"
                                  (downloadCount s) (failConut s)) s in
      Some (s, if strict ctx && (0 <? failConut s)%Z then Some 2%Z else None)
  end.

(** A process whose [main] returns ends with status 0. *)
Definition exit_code (o : option Z) : Z := default 0%Z o.

(** The state in which a process starts: empty caches, counters at zero,
    the local record as loaded. *)
Definition start (w : W) (record : ConfigFile) : State :=
  mkState ∅ ∅ 0%Z 0%Z record record w [] [].

End Get.

Arguments State : clear implicits.

(** ** A small concrete world

    Paths that exist make up the file system; the remote hosts are the
    tables of [Remote].  It serves to run the walk on examples. *)

Module Demo.

Record Remote : Type := mkRemote {
  imports_of : string -> list string;    (* by root path *)
  broken : string -> bool;               (* the fetch of this root fails *)
  revision_of : string -> string;        (* head revision of a root *)
  gopmfiles : gmap string ConfigFile     (* by the gopmfile's path *)
}.

Definition parse_version (v : string) : RevisionType * string :=
  if String.prefix "tag:" v then (TAG, String.substring 4 (String.length v - 4)%nat v)
  else if String.prefix "commit:" v
       then (COMMIT, String.substring 7 (String.length v - 7)%nat v)
       else (BRANCH, String.substring 7 (String.length v - 7)%nat v).

Definition fetch_demo (r : Remote) (w : gset string) (n : Node)
    : gset string * Node * list string * option string :=
  let w1 := {[InstallPath n]} ∪ w in
  if broken r (RootPath n) then (w1, n, [], Some "not found")
  else
    let file := InstallPath n +:+ "/.gopmfile" in
    let w2 := if bool_decide (file ∈ dom (gopmfiles r)) then {[file]} ∪ w1 else w1 in
    let n' :=
      if IsEmptyVal n && bool_decide (Revision n = "")
      then with_Revision (revision_of r (RootPath n)) n
      else n in
    (w2, n', imports_of r (RootPath n), None).

Definition env (r : Remote) : Env (gset string) := {|
  IsValidRemotePath := String.prefix "github.com/";
  isSubpackage := fun root target => String.prefix target root;
  GetRootPath := fun p => p;
  installPathOf := fun root _ _ => "/repo/" +:+ root;
  installGopathOf := fun root => "/gopath/src/" +:+ root;
  VerString := ImportPath;
  validPkgInfo := parse_version;
  GOPMFILE := ".gopmfile";
  Join := fun a b => a +:+ "/" +:+ b;
  IsExist := fun w n => bool_decide (InstallPath n ∈ w);
  HasVcs := fun w n => bool_decide (InstallGopath n +:+ "/.git" ∈ w);
  GetVcsName := fun w p => if bool_decide (p +:+ "/.git" ∈ w) then "git" else "";
  IsFile := fun w p => bool_decide (p ∈ w);
  loadGopmfile := fun _ p => default ∅ (gopmfiles r !! p);
  GetImports := fun _ _ root _ _ => imports_of r root;
  UpdateByVcs := fun w n _ =>
    (w, n, if broken r (RootPath n) then Some "exit status 1" else None);
  Download := fun w _ n => fetch_demo r w n;
  RemoveAll := fun w p => w ∖ {[p; p +:+ "/.gopmfile"]};
  CopyToGopath := fun w n => {[InstallGopath n]} ∪ w
|}.

Definition flags0 : Ctx := mkCtx false false false false false false false.

(** [--update] *)
Definition flags_u : Ctx := mkCtx false true false false false false false.

(** [--update --gopath] *)
Definition flags_ug : Ctx := mkCtx false true false true false false false.

(** [a/x] imports [b/y] and [c/z]; its gopmfile pins [b/y], and only
    [b/y], to the tag [v1]. *)
Definition pinned : Remote :=
  mkRemote
    (fun root =>
       if bool_decide (root = "github.com/a/x")
       then ["github.com/b/y"; "github.com/c/z"] else [])
    (fun _ => false)
    (fun _ => "r1")
    {["/repo/github.com/a/x/.gopmfile" :=
        {[("deps", "github.com/b/y") := "tag:v1"]}]}.

(** The spec's scenario A: [p/b] imports [p/c], nothing else imports. *)
Definition scenarioA : Remote :=
  mkRemote
    (fun root => if bool_decide (root = "github.com/p/b")
                 then ["github.com/p/c"] else [])
    (fun _ => false) (fun _ => "r1") ∅.

(** The spec's scenario B: the fetch of [p/x] fails. *)
Definition scenarioB : Remote :=
  mkRemote (fun _ => []) (fun root => bool_decide (root = "github.com/p/x"))
           (fun _ => "r1") ∅.

(** [--strict] (global) *)
Definition flags_strict : Ctx := mkCtx false false false false false false true.

(** Nothing imports anything, every fetch succeeds. *)
Definition plain : Remote :=
  mkRemote (fun _ => []) (fun _ => false) (fun _ => "r1") ∅.

(** [a/x] imports [b/y] and [c/z], [b/y] imports [c/z], and the fetch of
    [c/z] fails. *)
Definition tree : Remote :=
  mkRemote
    (fun root =>
       if bool_decide (root = "github.com/a/x")
       then ["github.com/b/y"; "github.com/c/z"]
       else if bool_decide (root = "github.com/b/y")
            then ["github.com/c/z"] else [])
    (fun root => bool_decide (root = "github.com/c/z"))
    (fun _ => "r1") ∅.

Definition plain_env : Env (gset string) := env plain.
Definition tree_env : Env (gset string) := env tree.
Definition pinned_env : Env (gset string) := env pinned.
Definition scenarioA_env : Env (gset string) := env scenarioA.
Definition scenarioB_env : Env (gset string) := env scenarioB.

(** The node of [gopm get path]. *)
Definition node (path : string) : Node :=
  NewNode (E := plain_env) path BRANCH "" true.

(** The node of [gopm get path@kind:value]. *)
Definition node_at (path : string) (tp : RevisionType) (val : string) : Node :=
  NewNode (E := plain_env) path tp val true.

(** The process starts with nothing on disk and an empty record. *)
Definition fresh : State (gset string) := start ∅ ∅.

(** [$GOPATH/src/github.com/a/x] is a git checkout. *)
Definition checkout : gset string := {["/gopath/src/github.com/a/x/.git"]}.

(** [github.com/a/x] is in the shared repository. *)
Definition installed : gset string := {["/repo/github.com/a/x"]}.

(** The record of an earlier run. *)
Definition record (rev : string) : ConfigFile :=
  {[("github.com/a/x", "value") := rev]}.

End Demo.


(** ** The entry points: [getByPaths], [getByGopmfile], [runGet]

    Four more collaborators, none of them in [get.go]:
    [setting.GetPkgFullPath], the registry of short package names;
    [genGopmfile], which gives the gopmfile of the project, its target and
    its imports, and may write the file; [setup]; and [log.Help], after the
    message, which gives the state back if it returns and [None] if the
    process ends in it. *)

(** [strings.Index(s, sep)], with [None] for [-1]. *)
Definition Index (s sep : string) : option nat := String.index 0 sep s.

(** [strings.Contains(s, sep)] *)
Definition Contains (s sep : string) : bool :=
  match Index s sep with Some _ => true | None => false end.

Section Entry.

Context {W : Type} {E : Env W}.
Variable GetPkgFullPath : string -> string.
Variable genGopmfile : W -> W * ConfigFile * string * list string.
Variable setup : Ctx -> State W -> State W.
Variable Help : string -> State W -> option (State W).

(** [// Check package name.]: a path with no ["/"] is looked up in the
    registry, and the node is made anew when the registry gives another
    path. *)
Definition resolve_name (pkgPath : string) (n : Node) : Node :=
  if negb (Contains pkgPath "/") then
    let tmpPath := GetPkgFullPath pkgPath in
    if negb (String.eqb tmpPath pkgPath)
    then NewNode tmpPath (Type_ n) (Value n) (IsGetDeps n)
    else n
  else n.

(** The body of the loop of [getByPaths], for the argument [info]. *)
Definition arg_node (ctx : Ctx) (info : string) : Node :=
  let n := NewNode info BRANCH "" (negb (download ctx)) in
  match Index info "@" with
  | Some i =>
      let pkgPath := String.substring 0 i info in
      let tv := validPkgInfo
                  (String.substring (i + 1) (String.length info - (i + 1)) info) in
      resolve_name pkgPath (NewNode pkgPath tv.1 tv.2 (negb (download ctx)))
  | None => resolve_name info n
  end.

(** [nodes = append(nodes, n)] over the arguments. *)
Definition arg_nodes (ctx : Ctx) (args : list string) : list Node :=
  fold_left (fun nodes info => nodes ++ [arg_node ctx info]) args [].

Definition getByPaths (fuel : nat) (ctx : Ctx) (args : list string)
    (s : State W) : option (State W * option Z) :=
  getPackages fuel "." ctx (arg_nodes ctx args) s.

(** The body of the loop of [getByGopmfile], for the import [name]. *)
Definition manifest_node (ctx : Ctx) (gf : ConfigFile) (name : string) : Node :=
  let name := GetRootPath name in
  let n := NewNode name BRANCH "" (negb (download ctx)) in
  let v := MustValue gf "deps" name in
  if (0 <? String.length v)%nat then with_version (validPkgInfo v) n else n.

Definition manifest_nodes (ctx : Ctx) (gf : ConfigFile) (imports : list string)
    : list Node :=
  fold_left (fun nodes name => nodes ++ [manifest_node ctx gf name]) imports [].

Definition getByGopmfile (fuel : nat) (ctx : Ctx) (s : State W)
    : option (State W * option Z) :=
  let '(w, gf, target, imports) := genGopmfile (world s) in
  getPackages fuel target ctx (manifest_nodes ctx gf imports) (set_world w s).

(** The [switch] of [runGet]: the names of the first pair of options that
    must not come together, [None] when [hasConflict] stays false. *)
Definition conflict_names (ctx : Ctx) : option string :=
  if local ctx && gopath ctx then Some "'--local, -l' and '--gopath, -g'"
  else if local ctx && remote ctx then Some "'--local, -l' and '--remote, -r'"
  else if gopath ctx && remote ctx then Some "'--gopath, -g' and '--remote, -r'"
  else None.

Definition help_line : string := "Try 'gopm help get' to get more information".

(** [if hasConflict { ... }] *)
Definition check_conflict (ctx : Ctx) (s : State W) : option (State W) :=
  match conflict_names ctx with
  | Some names =>
      let s := add_log (Error "get" "Command options have conflicts") s in
      let s := add_log
                 (Error "" "Following options are not supposed to use at same time:")
                 s in
      let s := add_log (Error "" (tab +:+ names)) s in
      Help help_line s
  | None => Some s
  end.

(** The outer [None] is the end of the process in [log.Help]; inside is
    what [getPackages] gives. *)
Definition runGet (fuel : nat) (ctx : Ctx) (args : list string) (s : State W)
    : option (option (State W * option Z)) :=
  let s := setup ctx s in
  match check_conflict ctx s with
  | None => None
  | Some s =>
      match args with
      | [] =>
          let checked :=
            if download ctx then
              let s := add_log (Error "get" "Not enough arguments for option:") s in
              let s := add_log (Error "" (tab +:+ "'--download, -d'")) s in
              Help help_line s
            else Some s in
          match checked with
          | None => None
          | Some s => Some (getByGopmfile fuel ctx s)
          end
      | _ :: _ => Some (getByPaths fuel ctx args s)
      end
  end.

End Entry.

(** ** Measures of a run *)

Section Measures.

Context {W : Type} {E : Env W}.

(** The fetches leave [IsGetDeps] of the node as it was. *)
Definition fetch_keeps_deps_flag : Prop :=
  (forall w c n, IsGetDeps (Download w c n).1.1.2 = IsGetDeps n) /\
  (forall w n vcs, IsGetDeps (UpdateByVcs w n vcs).1.2 = IsGetDeps n).

(** The calls of [downloadPackage] that returned a node. *)
Definition ok_calls (cs : list (Node * bool)) : nat :=
  length (List.filter (fun c : Node * bool => c.2) cs).

(** From [a] to [b], [downloadCount] went up by the number of calls that
    returned a node. *)
Definition counts_downloads (a b : State W) : Prop :=
  forall k : Z,
    downloadCount a = GoInt.wrap k ->
    exists l, calls b = calls a ++ l
              /\ downloadCount b = GoInt.wrap (k + Z.of_nat (ok_calls l)).

(** The calls of [log.Trace]: the skip notices. *)
Definition is_notice (l : LogLine) : bool :=
  match l with Trace _ _ => true | _ => false end.

Definition skip_notices (l : list LogLine) : nat :=
  length (List.filter is_notice l).

(** The test [update && (gopath || local) && len(vcs) > 0] of
    [downloadPackage]. *)
Definition updates_by_vcs (ctx : Ctx) (n : Node) (s : State W) : bool :=
  update ctx && (gopath ctx || local ctx)
  && (0 <? String.length (GetVcsName (world s) (InstallGopath n)))%nat.

(** The state after the turn of a node that is skipped as installed. *)
Definition skip_installed (ctx : Ctx) (n : Node) (s : State W) : State W :=
  let s := note_skip "Skipped installed package: %s" n s in
  if gopath ctx || local ctx
  then set_world (CopyToGopath (world s) n) s
  else s.

End Measures.

(** ** The install on disk

    What a run leaves of the install of a package whose download failed
    depends on the file system: these are the properties of the
    collaborators that the facts below ask for. *)

Section Disk.

Context {W : Type} {E : Env W}.

(** The install locations of a node are those of its root path. *)
Definition laid_out (m : Node) : Prop :=
  (exists tp val, InstallPath m = installPathOf (RootPath m) tp val)
  /\ InstallGopath m = installGopathOf (RootPath m).

(** The fetches leave both install locations of the node as they were. *)
Definition fetch_keeps_install : Prop :=
  (forall w c n,
     InstallPath (Download w c n).1.1.2 = InstallPath n
     /\ InstallGopath (Download w c n).1.1.2 = InstallGopath n) /\
  (forall w n vcs,
     InstallPath (UpdateByVcs w n vcs).1.2 = InstallPath n
     /\ InstallGopath (UpdateByVcs w n vcs).1.2 = InstallGopath n).

(** After [os.RemoveAll(n.InstallPath)] the install of [n] does not exist. *)
Definition RemoveAll_removes : Prop :=
  forall w n, IsExist (RemoveAll w (InstallPath n)) n = false.

(** What is done to a node of another root does not make the install of
    [n]. *)
Definition keeps_out (ctx : Ctx) (n : Node) : Prop :=
  forall m w,
    laid_out m -> RootPath m <> RootPath n -> IsExist w n = false ->
    IsExist (Download w ctx m).1.1.1 n = false
    /\ (forall vcs, IsExist (UpdateByVcs w m vcs).1.1 n = false)
    /\ IsExist (RemoveAll w (InstallPath m)) n = false
    /\ IsExist (CopyToGopath w m) n = false.

(** The calls of [downloadPackage] made for the root [r]. *)
Definition calls_for (r : string) (cs : list (Node * bool)) : list (Node * bool) :=
  List.filter (fun c : Node * bool => bool_decide (RootPath c.1 = r)) cs.

(** From [a] to [b]: the history grows, and the install of [n], absent in
    [a] if a call for [n] has failed, is absent in [b] if one has. *)
Definition stays_out (n : Node) (a b : State W) : Prop :=
  (forall c, c ∈ calls a -> c ∈ calls b)
  /\ (once_per_root a ->
      ((n, false) ∈ calls a -> IsExist (world a) n = false) ->
      once_per_root b
      /\ ((n, false) ∈ calls b -> IsExist (world b) n = false)).

End Disk.

(** ** More of the concrete world *)

Module DemoEntry.

(** One short name is registered. *)
Definition registry (name : string) : string :=
  if String.eqb name "beego" then "github.com/astaxie/beego" else name.

(** The project [github.com/me/app] imports [p/a] and [p/b/sub], and pins
    [p/b] to the tag [v2.0.0]. *)
Definition manifest : ConfigFile :=
  {[("deps", "github.com/p/b") := "tag:v2.0.0"]}.

Definition gen (w : gset string)
    : gset string * ConfigFile * string * list string :=
  (w, manifest, "github.com/me/app", ["github.com/p/a"; "github.com/p/b"]).

(** [log.Help] ends the process. *)
Definition help_exits (msg : string) (s : State (gset string))
    : option (State (gset string)) := None.

Definition no_setup (ctx : Ctx) (s : State (gset string)) : State (gset string) := s.

(** [--download] *)
Definition flags_d : Ctx := mkCtx true false false false false false false.

(** [--local --remote] *)
Definition flags_lr : Ctx := mkCtx false false true false true false false.

(** [--update], with [a/x] installed: the state of a second run. *)
Definition second_run : State (gset string) :=
  start Demo.installed (Demo.record "r1").

End DemoEntry.

(** * Facts *)

Module GoIntFacts.
Import GoInt.

Lemma incr_small (c : Z) : (min_int <= c < max_int)%Z -> incr c = (c + 1)%Z.
Proof.
  unfold incr, wrap, min_int, max_int. intros Hc.
  rewrite Z.mod_small; lia.
Qed.

Lemma incr_max : incr max_int = min_int.
Proof. reflexivity. Qed.

Lemma wrap_range (z : Z) : (min_int <= wrap z <= max_int)%Z.
Proof.
  unfold wrap, min_int, max_int.
  pose proof (Z.mod_pos_bound (z - - 2 ^ 63) (2 ^ 64)) as Hb. lia.
Qed.

End GoIntFacts.

Section NodeFacts.

Context {W : Type} {E : Env W}.

Lemma RootPath_mark_deps_only (n : Node) (s : State W) :
  RootPath (mark_deps_only n s) = RootPath n.
Proof. unfold mark_deps_only. by destruct (IsFixed n && IsExist (world s) n). Qed.

Lemma ImportPath_mark_deps_only (n : Node) (s : State W) :
  ImportPath (mark_deps_only n s) = ImportPath n.
Proof. unfold mark_deps_only. by destruct (IsFixed n && IsExist (world s) n). Qed.

Lemma RootPath_build_child ctx gf name imp :
  RootPath (build_child ctx gf name imp) = GetRootPath name.
Proof.
  unfold build_child. destruct gf as [g|]; [|done].
  by destruct (0 <? String.length (MustValue g "deps" imp))%nat.
Qed.

Lemma ImportPath_build_child ctx gf name imp :
  ImportPath (build_child ctx gf name imp) = name.
Proof.
  unfold build_child. destruct gf as [g|]; [|done].
  by destruct (0 <? String.length (MustValue g "deps" imp))%nat.
Qed.

(** ** What [downloadPackage] does to each part of the state *)

Lemma downloadPackage_cache ctx n s :
  downloadCache (downloadPackage ctx n s).1.1.1 = {[RootPath n]} ∪ downloadCache s.
Proof.
  unfold downloadPackage, conclude.
  destruct (fetch ctx n (begin_download n s)) as [[[w n'] imports] [e|]]; done.
Qed.

Lemma downloadPackage_calls ctx n s :
  calls (downloadPackage ctx n s).1.1.1
  = calls s ++ [(n, from_option (fun _ => true) false (downloadPackage ctx n s).1.2)].
Proof.
  unfold downloadPackage, conclude.
  destruct (fetch ctx n (begin_download n s)) as [[[w n'] imports] [e|]]; done.
Qed.

Lemma downloadPackage_skipCache ctx n s :
  skipCache (downloadPackage ctx n s).1.1.1 = skipCache s.
Proof.
  unfold downloadPackage, conclude.
  destruct (fetch ctx n (begin_download n s)) as [[[w n'] imports] [e|]]; done.
Qed.

Lemma downloadPackage_LocalNodes ctx n s :
  LocalNodes (downloadPackage ctx n s).1.1.1 = LocalNodes s.
Proof.
  unfold downloadPackage, conclude.
  destruct (fetch ctx n (begin_download n s)) as [[[w n'] imports] [e|]]; done.
Qed.

Lemma downloadPackage_downloadCount ctx n s :
  downloadCount (downloadPackage ctx n s).1.1.1 = downloadCount s.
Proof.
  unfold downloadPackage, conclude.
  destruct (fetch ctx n (begin_download n s)) as [[[w n'] imports] [e|]]; done.
Qed.

Lemma downloadPackage_nil ctx n s :
  (downloadPackage ctx n s).1.2 = None -> (downloadPackage ctx n s).2 = [].
Proof.
  unfold downloadPackage, conclude.
  destruct (fetch ctx n (begin_download n s)) as [[[w n'] imports] [e|]]; done.
Qed.

Lemma placeholder_cache ctx n (s : State W) :
  downloadCache (placeholder ctx n s) = downloadCache s.
Proof. unfold placeholder. by destruct (update ctx). Qed.

Lemma placeholder_calls ctx n (s : State W) : calls (placeholder ctx n s) = calls s.
Proof. unfold placeholder. by destruct (update ctx). Qed.

Lemma note_skip_cache f n s : downloadCache (note_skip f n s) = downloadCache s.
Proof. unfold note_skip. by case_bool_decide. Qed.

Lemma note_skip_calls f n s : calls (note_skip f n s) = calls s.
Proof. unfold note_skip. by case_bool_decide. Qed.

Lemma record_success_cache ctx nod s :
  downloadCache (record_success ctx nod s) = downloadCache s.
Proof.
  unfold record_success.
  destruct (IsEmptyVal nod && _); simpl;
    destruct ((gopath ctx || local ctx) && _); done.
Qed.

Lemma record_success_calls ctx nod s :
  calls (record_success ctx nod s) = calls s.
Proof.
  unfold record_success.
  destruct (IsEmptyVal nod && _); simpl;
    destruct ((gopath ctx || local ctx) && _); done.
Qed.

End NodeFacts.

(** ** Induction over a walk

    A relation between states that every step of the loop body respects
    holds between the states before and after any call of
    [downloadPackages].  The step of a download knows that the root was not
    in [downloadCache]; the step that ends the body of a fetched node knows
    the state [s] in which its turn began. *)

Section WalkRel.

Context {W : Type} {E : Env W}.
Variable target : string.
Variable ctx : Ctx.
Variable P : State W -> State W -> Prop.

Hypothesis P_refl : forall s, P s s.
Hypothesis P_trans : forall a b c, P a b -> P b c -> P a c.
Hypothesis P_reject : forall n s, P s (reject n s).
Hypothesis P_skip : forall f n s, P s (note_skip f n s).
Hypothesis P_copy : forall n s, P s (set_world (CopyToGopath (world s) n) s).
Hypothesis P_found : forall n s,
  P s (add_log (Log "Found gopmfile: %s" (VerString n)) s).
Hypothesis P_download : forall n s,
  RootPath n ∉ downloadCache s ->
  P s (downloadPackage ctx n (placeholder ctx n s)).1.1.1.
Hypothesis P_success : forall n s s1 n1 nod imports s2,
  RootPath n ∉ downloadCache s ->
  downloadPackage ctx n (placeholder ctx n s) = (s1, n1, Some nod, imports) ->
  P s s1 -> P s1 s2 ->
  P s (record_success ctx nod s2).

Lemma walk_imports_rel (rec : list Node -> State W -> option (State W)) n imports :
  (forall nodes s s', rec nodes s = Some s' -> P s s') ->
  forall names s s',
    walk_imports rec ctx n imports names s = Some s' -> P s s'.
Proof.
  intros Hrec names. induction names as [|name rest IH]; intros s s' Hw; simpl in Hw.
  - by simplify_eq.
  - destruct (IsFile (world s) (Join (InstallPath n) GOPMFILE)).
    + destruct (rec _ _) as [s2|] eqn:Hr; [|done].
      eapply P_trans; [apply P_found|]. eapply P_trans; [by eapply Hrec|by apply IH].
    + destruct (rec _ _) as [s2|] eqn:Hr; [|done].
      eapply P_trans; [by eapply Hrec|by apply IH].
Qed.

Lemma visit_rel (rec : list Node -> State W -> option (State W)) :
  (forall nodes s s', rec nodes s = Some s' -> P s s') ->
  forall n s s', visit rec target ctx n s = Some s' -> P s s'.
Proof.
  intros Hrec n s s' Hv. unfold visit in Hv.
  case_bool_decide; [by simplify_eq|].
  destruct (IsValidRemotePath (ImportPath n)); simpl in Hv; [|by simplify_eq].
  destruct (isSubpackage (RootPath n) target); [by simplify_eq|].
  set (n0 := mark_deps_only n s) in *.
  case_bool_decide as Hc; [by simplify_eq|].
  destruct (negb (update ctx) && IsExist (world s) n0).
  { simplify_eq. destruct (gopath ctx || local ctx); [|done].
    eapply P_trans; [apply P_skip|apply P_copy]. }
  pose proof (P_download n0 s Hc) as Hd.
  destruct (downloadPackage ctx n0 (placeholder ctx n0 s))
    as [[[s1 n1] nod] imports] eqn:Hdp.
  simpl in Hd. unfold finish_turn in Hv.
  destruct (walk_imports rec ctx n1 imports imports s1) as [s2|] eqn:Hw; [|done].
  pose proof (walk_imports_rel rec n1 imports Hrec _ _ _ Hw) as H12.
  destruct nod as [nod|]; simplify_eq.
  - by eapply P_success.
  - by eapply P_trans.
Qed.

Lemma walk_rel (rec : list Node -> State W -> option (State W)) :
  (forall nodes s s', rec nodes s = Some s' -> P s s') ->
  forall nodes s s', walk rec target ctx nodes s = Some s' -> P s s'.
Proof.
  intros Hrec nodes. induction nodes as [|n rest IH]; intros s s' Hw; simpl in Hw.
  - by simplify_eq.
  - destruct (visit rec target ctx n s) as [s1|] eqn:Hv; [|done].
    eapply P_trans; [by eapply visit_rel|by apply IH].
Qed.

Lemma downloadPackages_rel fuel nodes s s' :
  downloadPackages fuel target ctx nodes s = Some s' -> P s s'.
Proof.
  revert nodes s s'. induction fuel as [|fuel IH]; intros nodes s s' H; [done|].
  simpl in H. by eapply walk_rel.
Qed.

End WalkRel.

(** ** At most one download per root *)

Section Once.

Context {W : Type} {E : Env W}.

Lemma call_roots_downloadPackage ctx n (s : State W) :
  call_roots (downloadPackage ctx n s).1.1.1 = call_roots s ++ [RootPath n].
Proof.
  unfold call_roots. rewrite downloadPackage_calls, map_app. done.
Qed.

Lemma once_per_root_download ctx n (s : State W) :
  RootPath n ∉ downloadCache s ->
  once_per_root s ->
  once_per_root (downloadPackage ctx n (placeholder ctx n s)).1.1.1.
Proof.
  intros Hn [Hnd Hin]. unfold once_per_root.
  rewrite call_roots_downloadPackage, downloadPackage_cache, placeholder_cache.
  unfold call_roots in *. rewrite placeholder_calls. split.
  - apply NoDup_app. split; [done|]. split; [|apply NoDup_singleton].
    intros r Hr Hr'. apply list_elem_of_singleton in Hr' as ->. by apply Hn, Hin.
  - intros r [Hr|Hr]%elem_of_app.
    + apply elem_of_union_r. by apply Hin.
    + apply list_elem_of_singleton in Hr as ->. set_solver.
Qed.

Lemma once_per_root_walk target ctx fuel nodes (s s' : State W) :
  downloadPackages fuel target ctx nodes s = Some s' ->
  once_per_root s -> once_per_root s'.
Proof.
  apply (downloadPackages_rel target ctx (fun a b => once_per_root a -> once_per_root b)).
  - done.
  - auto.
  - done.
  - intros f n a. unfold once_per_root, call_roots.
    by rewrite note_skip_cache, note_skip_calls.
  - done.
  - done.
  - intros n a Hn. by apply once_per_root_download.
  - intros n a s1 n1 nod imports s2 Hn Hdp H1 H2 Ha.
    specialize (H2 (H1 Ha)). unfold once_per_root, call_roots in *.
    by rewrite record_success_cache, record_success_calls.
Qed.

(** C1.  In a run of the walk that starts with no call of [downloadPackage]
    made yet, [downloadPackage] is called on each root path at most once:
    the root paths of its calls, in order, have no repetition, whatever the
    number of import chains that lead to a root. *)
Theorem downloader_once_per_root target ctx fuel nodes (s s' : State W) :
  calls s = [] ->
  downloadPackages fuel target ctx nodes s = Some s' ->
  NoDup (call_roots s').
Proof.
  intros Hc Hrun.
  apply (once_per_root_walk _ _ _ _ _ _ Hrun).
  unfold once_per_root, call_roots. rewrite Hc. split; [constructor|].
  intros r Hr. by apply elem_of_nil in Hr.
Qed.

End Once.

(** ** Termination

    When the roots of all imports that can be reported lie in a finite set
    [U], every nested call of [downloadPackages] follows a download of a
    root of [U] that was not in [downloadCache]: the depth of the recursion
    is at most the number of roots of [U] still to download, plus one. *)

Section Termination.

Context {W : Type} {E : Env W}.
Variable U : gset string.
Hypothesis HU : imports_within U.
Variable target : string.
Variable ctx : Ctx.

Lemma fetch_imports_within n (s : State W) name :
  name ∈ (fetch ctx n s).1.2 -> GetRootPath name ∈ U.
Proof.
  destruct HU as [HD HG]. unfold fetch.
  destruct (update ctx && (gopath ctx || local ctx) && _).
  - destruct (UpdateByVcs _ _ _) as [[w n'] err]. simpl. apply HG.
  - destruct (IsGetDepsOnly n); simpl; [apply HG|apply HD].
Qed.

Lemma downloadPackage_imports_within n (s : State W) name :
  name ∈ (downloadPackage ctx n s).2 -> GetRootPath name ∈ U.
Proof.
  unfold downloadPackage, conclude.
  pose proof (fetch_imports_within n (begin_download n s) name) as Hf.
  destruct (fetch ctx n (begin_download n s)) as [[[w n'] imports] [e|]]; simpl in *.
  - by intros ?%elem_of_nil.
  - destruct (IsGetDeps n'); [done|by intros ?%elem_of_nil].
Qed.

Lemma measure_mono (C C' : gset string) :
  C ⊆ C' -> size (U ∖ C') <= size (U ∖ C).
Proof. intros HC. apply subseteq_size. set_solver. Qed.

Lemma measure_drop (C : gset string) (r : string) :
  r ∈ U -> r ∉ C -> size (U ∖ ({[r]} ∪ C)) < size (U ∖ C).
Proof.
  intros Hr HC. apply subset_size. split; [set_solver|].
  intros Hsub. specialize (Hsub r). set_solver.
Qed.

Lemma walk_imports_returns fuel rec n imports :
  returns_within U fuel rec ->
  forall names (s : State W),
    (forall name, name ∈ names -> GetRootPath name ∈ U) ->
    size (U ∖ downloadCache s) < fuel ->
    exists s', walk_imports rec ctx n imports names s = Some s'
               /\ downloadCache s ⊆ downloadCache s'.
Proof.
  intros Hrec names. induction names as [|name rest IH]; intros s Hin Hm; simpl.
  - by exists s.
  - assert (Hkids : forall gf c, c ∈ build_children ctx gf name imports ->
                                 RootPath c ∈ U).
    { intros gf c (imp & -> & _)%list_elem_of_fmap.
      rewrite RootPath_build_child. apply Hin. by left. }
    destruct (IsFile (world s) (Join (InstallPath n) GOPMFILE)).
    + edestruct Hrec as (s2 & -> & Hs2); [apply Hkids|exact Hm|].
      destruct (IH s2) as (s3 & -> & Hs3).
      * intros; apply Hin; by right.
      * pose proof (measure_mono _ _ Hs2). simpl in *. lia.
      * exists s3. split; [done|]. simpl in Hs2. set_solver.
    + edestruct Hrec as (s2 & -> & Hs2); [apply Hkids|exact Hm|].
      destruct (IH s2) as (s3 & -> & Hs3).
      * intros; apply Hin; by right.
      * pose proof (measure_mono _ _ Hs2). lia.
      * exists s3. split; [done|]. set_solver.
Qed.

Lemma visit_returns fuel rec n (s : State W) :
  returns_within U fuel rec ->
  RootPath n ∈ U ->
  size (U ∖ downloadCache s) < S fuel ->
  exists s', visit rec target ctx n s = Some s'
             /\ downloadCache s ⊆ downloadCache s'.
Proof.
  intros Hrec Hn Hm. unfold visit.
  case_bool_decide; [by exists s|].
  destruct (IsValidRemotePath (ImportPath n)); simpl; [|by eexists].
  destruct (isSubpackage (RootPath n) target); [by exists s|].
  pose proof (RootPath_mark_deps_only n s) as Hroot.
  set (n0 := mark_deps_only n s) in *.
  case_bool_decide as Hc.
  { eexists; split; [done|]. by rewrite note_skip_cache. }
  destruct (negb (update ctx) && IsExist (world s) n0).
  { eexists; split; [done|].
    destruct (gopath ctx || local ctx); simpl; by rewrite note_skip_cache. }
  pose proof (downloadPackage_cache ctx n0 (placeholder ctx n0 s)) as Hcache.
  pose proof (downloadPackage_imports_within n0 (placeholder ctx n0 s)) as Himp.
  destruct (downloadPackage ctx n0 (placeholder ctx n0 s))
    as [[[s1 n1] nod] imports]. simpl in Hcache, Himp.
  rewrite placeholder_cache in Hcache. unfold finish_turn.
  destruct (walk_imports_returns fuel rec n1 imports Hrec imports s1 Himp)
    as (s2 & -> & Hs2).
  { rewrite Hcache.
    pose proof (measure_drop (downloadCache s) (RootPath n0)) as Hd.
    rewrite Hroot in Hd. specialize (Hd Hn). rewrite Hroot in Hc.
    specialize (Hd Hc). rewrite Hroot. lia. }
  destruct nod as [nod|]; eexists; (split; [done|]).
  - rewrite record_success_cache. set_solver.
  - set_solver.
Qed.

Lemma walk_returns fuel rec :
  returns_within U fuel rec -> returns_within U (S fuel) (walk rec target ctx).
Proof.
  intros Hrec nodes. induction nodes as [|n rest IH]; intros s Hin Hm; simpl.
  - by exists s.
  - destruct (visit_returns fuel rec n s Hrec) as (s1 & -> & Hs1);
      [apply Hin; by left|done|].
    destruct (IH s1) as (s2 & -> & Hs2).
    + intros; apply Hin; by right.
    + pose proof (measure_mono _ _ Hs1). lia.
    + exists s2. split; [done|]. set_solver.
Qed.

Lemma downloadPackages_returns fuel :
  returns_within U fuel (downloadPackages fuel target ctx).
Proof.
  induction fuel as [|fuel IH].
  - intros nodes s _ Hm. lia.
  - simpl. by apply walk_returns.
Qed.

End Termination.

(** ** The loop body, case by case *)

Section Visit.

Context {W : Type} {E : Env W}.

Lemma downloadPackages_cons fuel target ctx n rest (s : State W) :
  downloadPackages (S fuel) target ctx (n :: rest) s
  = match visit (downloadPackages fuel target ctx) target ctx n s with
    | Some s' => downloadPackages (S fuel) target ctx rest s'
    | None => None
    end.
Proof. reflexivity. Qed.

Lemma visit_marker rec target ctx n (s : State W) :
  ImportPath n = "C" -> visit rec target ctx n s = Some s.
Proof. intros H. unfold visit. by rewrite bool_decide_eq_true_2. Qed.

Lemma visit_invalid rec target ctx n (s : State W) :
  ImportPath n <> "C" -> IsValidRemotePath (ImportPath n) = false ->
  visit rec target ctx n s = Some (reject n s).
Proof.
  intros HC Hv. unfold visit. rewrite bool_decide_eq_false_2 by done.
  by rewrite Hv.
Qed.

Lemma visit_subpackage rec target ctx n (s : State W) :
  ImportPath n = "C" \/ IsValidRemotePath (ImportPath n) = true ->
  isSubpackage (RootPath n) target = true ->
  visit rec target ctx n s = Some s.
Proof.
  intros Hv Hs. unfold visit. case_bool_decide; [done|].
  destruct Hv as [?|Hv]; [done|]. by rewrite Hv, Hs.
Qed.

Lemma visit_cached rec target ctx n (s : State W) :
  ImportPath n <> "C" -> IsValidRemotePath (ImportPath n) = true ->
  isSubpackage (RootPath n) target = false ->
  RootPath n ∈ downloadCache s ->
  visit rec target ctx n s
  = Some (note_skip "Skipped downloaded package: %s" (mark_deps_only n s) s).
Proof.
  intros HC Hv Hs Hc. unfold visit. rewrite bool_decide_eq_false_2 by done.
  rewrite Hv, Hs. simpl. rewrite bool_decide_eq_true_2; [done|].
  by rewrite RootPath_mark_deps_only.
Qed.

Lemma visit_reaches rec target ctx n (s : State W) :
  reaches_download target ctx n s = true ->
  visit rec target ctx n s
  = let n0 := mark_deps_only n s in
    finish_turn rec ctx (downloadPackage ctx n0 (placeholder ctx n0 s)).
Proof.
  unfold reaches_download, visit. intros H.
  repeat (apply andb_prop in H as [H ?]).
  destruct (bool_decide (ImportPath n = "C")); [done|].
  destruct (IsValidRemotePath (ImportPath n)); [|done].
  destruct (isSubpackage (RootPath n) target); [done|].
  simpl.
  destruct (bool_decide (RootPath (mark_deps_only n s) ∈ downloadCache s)); [done|].
  by destruct (negb (update ctx) && IsExist (world s) (mark_deps_only n s)).
Qed.

Lemma reaches_download_fresh target ctx n (s : State W) :
  reaches_download target ctx n s = true -> RootPath n ∉ downloadCache s.
Proof.
  unfold reaches_download. intros H.
  repeat (apply andb_prop in H as [H ?]).
  rewrite RootPath_mark_deps_only in *.
  by case_bool_decide.
Qed.

End Visit.

(** ** What a run keeps *)

Section Invariants.

Context {W : Type} {E : Env W}.

Lemma NoDup_fmap_eq {A B : Type} (f : A -> B) (l : list A) (x y : A) :
  NoDup (map f l) -> x ∈ l -> y ∈ l -> f x = f y -> x = y.
Proof.
  induction l as [|a l IH]; simpl; intros Hnd Hx Hy Hf.
  - by apply elem_of_nil in Hx.
  - apply NoDup_cons in Hnd as [Ha Hnd].
    apply elem_of_cons in Hx as [->|Hx]; apply elem_of_cons in Hy as [->|Hy].
    + done.
    + exfalso. apply Ha. rewrite Hf. apply list_elem_of_fmap. by exists y.
    + exfalso. apply Ha. rewrite <- Hf. apply list_elem_of_fmap. by exists x.
    + by apply IH.
Qed.

(** *** The history only grows *)

Lemma calls_grow target ctx fuel nodes (s s' : State W) :
  downloadPackages fuel target ctx nodes s = Some s' ->
  forall c, c ∈ calls s -> c ∈ calls s'.
Proof.
  apply (downloadPackages_rel target ctx
           (fun a b => forall c, c ∈ calls a -> c ∈ calls b)).
  - done.
  - auto.
  - done.
  - intros f n a c. by rewrite note_skip_calls.
  - done.
  - done.
  - intros n a _ c Hc. rewrite downloadPackage_calls, placeholder_calls.
    apply elem_of_app. by left.
  - intros n a s1 n1 nod imports s2 _ _ H1 H2 c Hc.
    rewrite record_success_calls. by apply H2, H1.
Qed.

(** *** [failConut] counts the failures *)

Lemma incr_wrap (z : Z) : GoInt.incr (GoInt.wrap z) = GoInt.wrap (z + 1).
Proof.
  unfold GoInt.incr, GoInt.wrap.
  replace ((z - GoInt.min_int) mod 2 ^ 64 + GoInt.min_int + 1 - GoInt.min_int)%Z
    with ((z - GoInt.min_int) mod 2 ^ 64 + 1)%Z by lia.
  replace (z + 1 - GoInt.min_int)%Z with ((z - GoInt.min_int) + 1)%Z by lia.
  by rewrite Z.add_mod_idemp_l.
Qed.

Lemma rejections_snoc l x :
  rejections (l ++ [x]) = rejections l + (if is_rejection x then 1 else 0).
Proof.
  unfold rejections. rewrite List.filter_app, length_app. simpl.
  by destruct (is_rejection x).
Qed.

Lemma failed_calls_snoc cs n (ok : bool) :
  failed_calls (cs ++ [(n, ok)]) = failed_calls cs + (if ok then 0 else 1).
Proof.
  unfold failed_calls. rewrite List.filter_app, length_app. simpl.
  by destruct ok.
Qed.

Lemma failures_counted_incr (s : State W) r f :
  failConut s = GoInt.wrap (Z.of_nat (r + f)) ->
  GoInt.incr (failConut s) = GoInt.wrap (Z.of_nat (r + f + 1)).
Proof. intros ->. rewrite incr_wrap. f_equal. lia. Qed.

Lemma failures_counted_reject n (s : State W) :
  failures_counted s -> failures_counted (reject n s).
Proof.
  unfold failures_counted, reject. simpl. intros H.
  rewrite rejections_snoc. simpl.
  rewrite (failures_counted_incr _ _ _ H). f_equal. lia.
Qed.

Lemma failures_counted_download ctx n (s : State W) :
  failures_counted s ->
  failures_counted (downloadPackage ctx n (placeholder ctx n s)).1.1.1.
Proof.
  intros H.
  assert (Hp : failures_counted (placeholder ctx n s)).
  { unfold placeholder. by destruct (update ctx). }
  revert Hp. generalize (placeholder ctx n s). clear H. intros a H.
  unfold failures_counted in *. unfold downloadPackage, conclude.
  destruct (fetch ctx n (begin_download n a)) as [[[w n'] imports] [e|]]; simpl.
  - rewrite failed_calls_snoc, !rejections_snoc. simpl.
    rewrite (failures_counted_incr _ _ _ H). f_equal. lia.
  - rewrite failed_calls_snoc, rejections_snoc. simpl. rewrite H. f_equal. lia.
Qed.

Lemma failures_counted_walk target ctx fuel nodes (s s' : State W) :
  downloadPackages fuel target ctx nodes s = Some s' ->
  failures_counted s -> failures_counted s'.
Proof.
  apply (downloadPackages_rel target ctx
           (fun a b => failures_counted a -> failures_counted b)).
  - done.
  - auto.
  - intros n a. apply failures_counted_reject.
  - intros f n a. unfold failures_counted, note_skip.
    case_bool_decide; [done|]. simpl. rewrite rejections_snoc. simpl.
    intros ->. f_equal. lia.
  - done.
  - intros n a. unfold failures_counted. simpl. rewrite rejections_snoc. simpl.
    intros ->. f_equal. lia.
  - intros n a _. apply failures_counted_download.
  - intros n a s1 n1 nod imports s2 _ _ H1 H2 Ha. specialize (H2 (H1 Ha)).
    unfold failures_counted in *. unfold record_success.
    destruct (IsEmptyVal nod && _); simpl;
      destruct ((gopath ctx || local ctx) && _); simpl;
      rewrite rejections_snoc; simpl; rewrite H2; f_equal; lia.
Qed.

(** *** The placeholders of failed downloads stay *)

Lemma fetch_root ctx n (s : State W) :
  fetch_keeps_root -> RootPath (fetch ctx n s).1.1.2 = RootPath n.
Proof.
  intros [HD HU]. unfold fetch.
  destruct (update ctx && (gopath ctx || local ctx) && _).
  - specialize (HU (world s) n (GetVcsName (world s) (InstallGopath n))).
    by destruct (UpdateByVcs _ _ _) as [[w n'] err].
  - destruct (IsGetDepsOnly n); [done|]. rewrite HD.
    by destruct (IsExist (world s) n).
Qed.

Lemma downloadPackage_root ctx n (s : State W) nod :
  fetch_keeps_root ->
  (downloadPackage ctx n s).1.2 = Some nod -> RootPath nod = RootPath n.
Proof.
  intros Hk. unfold downloadPackage, conclude.
  pose proof (fetch_root ctx n (begin_download n s) Hk) as Hr.
  destruct (fetch ctx n (begin_download n s)) as [[[w n'] imports] [e|]];
    simpl in *; intros; by simplify_eq.
Qed.

Lemma record_success_LocalNodes_other ctx nod (s : State W) (k : string * string) :
  k <> (RootPath nod, "value") ->
  LocalNodes (record_success ctx nod s) !! k = LocalNodes s !! k.
Proof.
  intros Hk. unfold record_success.
  destruct (IsEmptyVal nod && _); simpl;
    destruct ((gopath ctx || local ctx) && _); simpl; try done;
    unfold SetValue; by rewrite lookup_insert_ne.
Qed.

Lemma placeholders_kept_walk target ctx fuel nodes (s s' : State W) :
  update ctx = false ->
  fetch_keeps_root ->
  downloadPackages fuel target ctx nodes s = Some s' ->
  once_per_root s /\ placeholders_kept s ->
  once_per_root s' /\ placeholders_kept s'.
Proof.
  intros Hu Hk Hrun.
  cut ((forall c, c ∈ calls s -> c ∈ calls s')
       /\ (once_per_root s /\ placeholders_kept s ->
           once_per_root s' /\ placeholders_kept s')); [by intros [_ ?]|].
  revert Hrun.
  apply (downloadPackages_rel target ctx
           (fun a b => (forall c, c ∈ calls a -> c ∈ calls b)
                       /\ (once_per_root a /\ placeholders_kept a ->
                           once_per_root b /\ placeholders_kept b))).
  - done.
  - intros a b c [Hab1 Hab2] [Hbc1 Hbc2]. split; auto.
  - done.
  - intros f n a. unfold once_per_root, placeholders_kept, call_roots.
    rewrite note_skip_cache, note_skip_calls. split; [done|].
    unfold note_skip. by case_bool_decide.
  - done.
  - done.
  - intros n a Hn. split.
    { intros c Hc. rewrite downloadPackage_calls, placeholder_calls.
      apply elem_of_app. by left. }
    intros [Hop Hpk]. split; [by apply once_per_root_download|].
    intros m Hm. rewrite downloadPackage_LocalNodes.
    rewrite downloadPackage_calls, placeholder_calls in Hm.
    unfold placeholder. rewrite Hu. simpl. unfold SetValue.
    apply elem_of_app in Hm as [Hm|Hm].
    + rewrite lookup_insert_ne; [by apply Hpk|].
      intros Heq. apply Hn. destruct Hop as [_ Hin]. apply Hin.
      unfold call_roots. apply list_elem_of_fmap. exists (m, false).
      split; [|done]. simpl. congruence.
    + apply list_elem_of_singleton in Hm. injection Hm as -> _.
      by rewrite lookup_insert_eq.
  - intros n a s1 n1 nod imports s2 Hn Hdp [H1c H1] [H2c H2].
    split.
    { intros c Hc. rewrite record_success_calls. by apply H2c, H1c. }
    intros Ha. destruct (H2 (H1 Ha)) as [Hop2 Hpk2]. split.
    { unfold once_per_root, call_roots in *.
      by rewrite record_success_cache, record_success_calls. }
    intros m Hm. rewrite record_success_calls in Hm.
    rewrite record_success_LocalNodes_other; [by apply Hpk2|].
    assert (Hroot : RootPath nod = RootPath n).
    { apply (downloadPackage_root ctx n (placeholder ctx n a)); [done|].
      by rewrite Hdp. }
    assert (Hin : (n, true) ∈ calls s2).
    { apply H2c.
      pose proof (downloadPackage_calls ctx n (placeholder ctx n a)) as Hc.
      rewrite Hdp in Hc. simpl in Hc. rewrite Hc.
      apply elem_of_app. right. by apply list_elem_of_singleton. }
    intros Heq. destruct Hop2 as [Hnd _].
    assert (Hsame : (m, false) = (n, true)); [|done].
    apply (NoDup_fmap_eq (fun c => RootPath c.1) (calls s2)); try done.
    simpl. congruence.
Qed.

(** *** More fuel changes nothing *)

Lemma walk_imports_mono (rec rec' : list Node -> State W -> option (State W))
    ctx n imports :
  (forall nodes s s', rec nodes s = Some s' -> rec' nodes s = Some s') ->
  forall names s s',
    walk_imports rec ctx n imports names s = Some s' ->
    walk_imports rec' ctx n imports names s = Some s'.
Proof.
  intros Hrec names. induction names as [|name rest IH]; intros s s' H; [done|].
  simpl in *.
  destruct (IsFile (world s) (Join (InstallPath n) GOPMFILE));
    (destruct (rec _ _) as [s2|] eqn:Hr; [|done]);
    rewrite (Hrec _ _ _ Hr); by apply IH.
Qed.

Lemma visit_mono (rec rec' : list Node -> State W -> option (State W))
    target ctx n s s' :
  (forall nodes s s', rec nodes s = Some s' -> rec' nodes s = Some s') ->
  visit rec target ctx n s = Some s' -> visit rec' target ctx n s = Some s'.
Proof.
  intros Hrec. unfold visit.
  case_bool_decide; [done|].
  destruct (negb (IsValidRemotePath (ImportPath n))); [done|].
  destruct (isSubpackage (RootPath n) target); [done|].
  case_bool_decide; [done|].
  destruct (negb (update ctx) && _); [done|].
  destruct (downloadPackage ctx _ _) as [[[s1 n1] nod] imports].
  unfold finish_turn.
  destruct (walk_imports rec ctx n1 imports imports s1) as [s2|] eqn:Hw; [|done].
  by rewrite (walk_imports_mono rec rec' ctx n1 imports Hrec _ _ _ Hw).
Qed.

Lemma walk_mono (rec rec' : list Node -> State W -> option (State W))
    target ctx :
  (forall nodes s s', rec nodes s = Some s' -> rec' nodes s = Some s') ->
  forall nodes s s',
    walk rec target ctx nodes s = Some s' ->
    walk rec' target ctx nodes s = Some s'.
Proof.
  intros Hrec nodes. induction nodes as [|n rest IH]; intros s s' H; [done|].
  simpl in *. destruct (visit rec target ctx n s) as [s1|] eqn:Hv; [|done].
  rewrite (visit_mono rec rec' _ _ _ _ _ Hrec Hv). by apply IH.
Qed.

Lemma downloadPackages_fuel_S fuel target ctx nodes (s s' : State W) :
  downloadPackages fuel target ctx nodes s = Some s' ->
  downloadPackages (S fuel) target ctx nodes s = Some s'.
Proof.
  revert nodes s s'. induction fuel as [|fuel IH]; intros nodes s s' H; [done|].
  change (walk (downloadPackages fuel target ctx) target ctx nodes s = Some s') in H.
  change (walk (downloadPackages (S fuel) target ctx) target ctx nodes s = Some s').
  by apply (walk_mono (downloadPackages fuel target ctx)).
Qed.

End Invariants.

(** ** Induction over a walk of nodes of one kind

    As [downloadPackages_rel], for a relation whose steps are known only
    for the nodes in [G]: the nodes given, and the children the walk
    builds, are in [G]. *)

Section WalkOn.

Context {W : Type} {E : Env W}.
Variable target : string.
Variable ctx : Ctx.
Variable G : Node -> Prop.
Variable P : State W -> State W -> Prop.

Hypothesis G_child : forall gf name imp, G (build_child ctx gf name imp).
Hypothesis G_mark : forall n (s : State W), G n -> G (mark_deps_only n s).
Hypothesis P_refl : forall s, P s s.
Hypothesis P_trans : forall a b c, P a b -> P b c -> P a c.
Hypothesis P_reject : forall n s, P s (reject n s).
Hypothesis P_skip : forall f n s, P s (note_skip f n s).
Hypothesis P_copy : forall n s,
  G n -> RootPath n ∉ downloadCache s ->
  P s (set_world (CopyToGopath (world s) n) s).
Hypothesis P_found : forall n s,
  P s (add_log (Log "Found gopmfile: %s" (VerString n)) s).
Hypothesis P_download : forall n s,
  G n -> RootPath n ∉ downloadCache s ->
  P s (downloadPackage ctx n (placeholder ctx n s)).1.1.1.
Hypothesis P_success : forall n s s1 n1 nod imports s2,
  G n -> RootPath n ∉ downloadCache s ->
  downloadPackage ctx n (placeholder ctx n s) = (s1, n1, Some nod, imports) ->
  P s s1 -> P s1 s2 ->
  P s (record_success ctx nod s2).

Lemma walk_imports_on (rec : list Node -> State W -> option (State W)) n imports :
  (forall nodes s s', Forall G nodes -> rec nodes s = Some s' -> P s s') ->
  forall names s s',
    walk_imports rec ctx n imports names s = Some s' -> P s s'.
Proof.
  intros Hrec names.
  assert (Hch : forall gf name, Forall G (build_children ctx gf name imports)).
  { intros gf name. unfold build_children. apply Forall_forall.
    intros c Hc. apply list_elem_of_fmap in Hc as (imp & -> & _). apply G_child. }
  induction names as [|name rest IH]; intros s s' Hw; simpl in Hw.
  - by simplify_eq.
  - destruct (IsFile (world s) (Join (InstallPath n) GOPMFILE)).
    + destruct (rec _ _) as [s2|] eqn:Hr; [|done].
      eapply P_trans; [apply P_found|].
      eapply P_trans; [by eapply Hrec|by apply IH].
    + destruct (rec _ _) as [s2|] eqn:Hr; [|done].
      eapply P_trans; [by eapply Hrec|by apply IH].
Qed.

Lemma visit_on (rec : list Node -> State W -> option (State W)) :
  (forall nodes s s', Forall G nodes -> rec nodes s = Some s' -> P s s') ->
  forall n s s', G n -> visit rec target ctx n s = Some s' -> P s s'.
Proof.
  intros Hrec n s s' Hg Hv. unfold visit in Hv.
  case_bool_decide; [by simplify_eq|].
  destruct (IsValidRemotePath (ImportPath n)); simpl in Hv; [|by simplify_eq].
  destruct (isSubpackage (RootPath n) target); [by simplify_eq|].
  pose proof (G_mark n s Hg) as Hg0.
  set (n0 := mark_deps_only n s) in *.
  case_bool_decide as Hc; [by simplify_eq|].
  destruct (negb (update ctx) && IsExist (world s) n0).
  { simplify_eq. destruct (gopath ctx || local ctx); [|done].
    eapply P_trans; [apply P_skip|apply P_copy; [done|]].
    by rewrite note_skip_cache. }
  pose proof (P_download n0 s Hg0 Hc) as Hd.
  destruct (downloadPackage ctx n0 (placeholder ctx n0 s))
    as [[[s1 n1] nod] imports] eqn:Hdp.
  simpl in Hd. unfold finish_turn in Hv.
  destruct (walk_imports rec ctx n1 imports imports s1) as [s2|] eqn:Hw; [|done].
  pose proof (walk_imports_on rec n1 imports Hrec _ _ _ Hw) as H12.
  destruct nod as [nod|]; simplify_eq.
  - by eapply P_success.
  - by eapply P_trans.
Qed.

Lemma walk_on (rec : list Node -> State W -> option (State W)) :
  (forall nodes s s', Forall G nodes -> rec nodes s = Some s' -> P s s') ->
  forall nodes s s',
    Forall G nodes -> walk rec target ctx nodes s = Some s' -> P s s'.
Proof.
  intros Hrec nodes. induction nodes as [|n rest IH]; intros s s' Hg Hw; simpl in Hw.
  - by simplify_eq.
  - apply Forall_cons in Hg as [Hn Hg].
    destruct (visit rec target ctx n s) as [s1|] eqn:Hv; [|done].
    eapply P_trans; [by eapply visit_on|by apply IH].
Qed.

Lemma downloadPackages_on fuel nodes s s' :
  Forall G nodes ->
  downloadPackages fuel target ctx nodes s = Some s' -> P s s'.
Proof.
  revert nodes s s'. induction fuel as [|fuel IH]; intros nodes s s' Hg H; [done|].
  simpl in H. by eapply walk_on.
Qed.

End WalkOn.

(** ** After a failed download *)

Section Failed.

Context {W : Type} {E : Env W}.

Lemma laid_out_child ctx gf name imp : laid_out (build_child ctx gf name imp).
Proof.
  unfold build_child, laid_out. destruct gf as [g|].
  - destruct (0 <? String.length (MustValue g "deps" imp))%nat; simpl;
      (split; [by eexists _, _|done]).
  - simpl. split; [by eexists _, _|done].
Qed.

Lemma laid_out_mark n (s : State W) : laid_out n -> laid_out (mark_deps_only n s).
Proof. unfold mark_deps_only. by destruct (IsFixed n && IsExist (world s) n). Qed.

(** The node a fetch leaves has the root and the install locations of the
    node it was given. *)
Lemma fetch_place ctx n (s : State W) :
  fetch_keeps_root -> fetch_keeps_install ->
  let n' := (fetch ctx n s).1.1.2 in
  RootPath n' = RootPath n /\ InstallPath n' = InstallPath n
  /\ InstallGopath n' = InstallGopath n.
Proof.
  intros [Kd Ku] [Id Iu]. unfold fetch.
  destruct (update ctx && (gopath ctx || local ctx) && _).
  - specialize (Ku (world s) n (GetVcsName (world s) (InstallGopath n))).
    specialize (Iu (world s) n (GetVcsName (world s) (InstallGopath n))).
    destruct (UpdateByVcs _ _ _) as [[w n'] err]. simpl in *. tauto.
  - destruct (IsGetDepsOnly n); [done|].
    destruct (IsExist (world s) n).
    + specialize (Kd (world s) ctx
                     (with_Revision (MustValue (LocalNodes s) (RootPath n) "value") n)).
      specialize (Id (world s) ctx
                     (with_Revision (MustValue (LocalNodes s) (RootPath n) "value") n)).
      simpl in *. tauto.
    + specialize (Kd (world s) ctx n). specialize (Id (world s) ctx n). tauto.
Qed.

Lemma laid_out_same n n' :
  RootPath n' = RootPath n -> InstallPath n' = InstallPath n ->
  InstallGopath n' = InstallGopath n -> laid_out n -> laid_out n'.
Proof. unfold laid_out. intros -> -> ->. done. Qed.

(** A fetch for another root leaves the install of [n] out. *)
Lemma fetch_keeps_out ctx n m (s : State W) :
  keeps_out ctx n -> laid_out m -> RootPath m <> RootPath n ->
  IsExist (world s) n = false ->
  IsExist (fetch ctx m s).1.1.1 n = false.
Proof.
  intros Hout Hm Hr Hn. unfold fetch.
  destruct (update ctx && (gopath ctx || local ctx) && _).
  - destruct (Hout m (world s) Hm Hr Hn) as (_ & Hu & _).
    specialize (Hu (GetVcsName (world s) (InstallGopath m))).
    by destruct (UpdateByVcs _ _ _) as [[w n'] err].
  - destruct (IsGetDepsOnly m); [done|].
    destruct (IsExist (world s) m).
    + by destruct (Hout (with_Revision (MustValue (LocalNodes s) (RootPath m) "value") m)
                        (world s) Hm Hr Hn) as (Hd & _).
    + by destruct (Hout m (world s) Hm Hr Hn) as (Hd & _).
Qed.

Lemma world_downloadPackage ctx m (s : State W) :
  let r := fetch ctx m (begin_download m s) in
  world (downloadPackage ctx m s).1.1.1
  = match r.2 with
    | Some _ => RemoveAll r.1.1.1 (InstallPath r.1.1.2)
    | None => r.1.1.1
    end
  /\ (downloadPackage ctx m s).1.2
     = match r.2 with Some _ => None | None => Some r.1.1.2 end.
Proof.
  unfold downloadPackage, conclude.
  by destruct (fetch ctx m (begin_download m s)) as [[[w n'] imports] [e|]].
Qed.

Section Node.

Variable target : string.
Variable ctx : Ctx.
Variable n : Node.
Hypothesis Hroot : fetch_keeps_root.
Hypothesis Hinst : fetch_keeps_install.
Hypothesis Hrm : RemoveAll_removes.
Hypothesis Hout : keeps_out ctx n.

Lemma stays_out_same (a b : State W) :
  calls b = calls a -> downloadCache b = downloadCache a -> world b = world a ->
  stays_out n a b.
Proof.
  intros Hc Hd Hw. unfold stays_out, once_per_root, call_roots.
  rewrite Hc, Hd, Hw. done.
Qed.

Lemma stays_out_download m (s : State W) :
  laid_out m -> RootPath m ∉ downloadCache s ->
  stays_out n s (downloadPackage ctx m (placeholder ctx m s)).1.1.1.
Proof.
  intros Hm Hc. split.
  { intros c Hin. rewrite downloadPackage_calls, placeholder_calls.
    apply elem_of_app. by left. }
  intros Hop Hn. split; [by apply once_per_root_download|].
  rewrite downloadPackage_calls, placeholder_calls.
  set (s0 := placeholder ctx m s).
  assert (Hw0 : world s0 = world s).
  { unfold s0, placeholder. by destruct (update ctx). }
  pose proof (fetch_place ctx m (begin_download m s0) Hroot Hinst) as (_ & Hip & _).
  destruct (world_downloadPackage ctx m s0) as [Hw Hres].
  rewrite Hw, Hres.
  intros [Hin|Hin]%elem_of_app.
  - (* a call for [n] had failed: another root *)
    assert (Hr : RootPath m <> RootPath n).
    { intros Heq. apply Hc. rewrite Heq. apply Hop.
      unfold call_roots. apply list_elem_of_fmap. by exists (n, false). }
    assert (Hf : IsExist (fetch ctx m (begin_download m s0)).1.1.1 n = false).
    { apply fetch_keeps_out; [done..|]. simpl. rewrite Hw0. by apply Hn. }
    destruct ((fetch ctx m (begin_download m s0)).2); [|done].
    simpl in Hip. rewrite Hip.
    by destruct (Hout m _ Hm Hr Hf) as (_ & _ & Hrem & _).
  - (* this call is the one for [n], and it failed *)
    apply list_elem_of_singleton in Hin.
    destruct ((fetch ctx m (begin_download m s0)).2); simpl in Hin; [|congruence].
    injection Hin as ->. simpl in Hip. rewrite Hip. apply Hrm.
Qed.

Lemma stays_out_walk fuel nodes (s s' : State W) :
  Forall laid_out nodes ->
  downloadPackages fuel target ctx nodes s = Some s' -> stays_out n s s'.
Proof.
  apply (downloadPackages_on target ctx laid_out (stays_out n)).
  - apply laid_out_child.
  - apply laid_out_mark.
  - intros a. by apply stays_out_same.
  - intros a b c [Hab1 Hab2] [Hbc1 Hbc2]. split; [auto|].
    intros Ha Hn. destruct (Hab2 Ha Hn) as [Hb Hn']. by apply Hbc2.
  - intros m a. by apply stays_out_same.
  - intros f m a. apply stays_out_same;
      [apply note_skip_calls | apply note_skip_cache |].
    unfold note_skip. by case_bool_decide.
  - intros m a Hm Hc. split; [done|]. intros Ha Hn. split; [done|].
    simpl. intros Hin.
    assert (Hr : RootPath m <> RootPath n).
    { intros Heq. apply Hc. rewrite Heq. apply Ha.
      unfold call_roots. apply list_elem_of_fmap. by exists (n, false). }
    by destruct (Hout m (world a) Hm Hr (Hn Hin)) as (_ & _ & _ & Hcp).
  - intros m a. by apply stays_out_same.
  - intros m a Hm Hc. by apply stays_out_download.
  - intros m a s1 n1 nod imports s2 Hm Hc Hdp [H1 H1'] [H2 H2'].
    split.
    { intros c Hin. rewrite record_success_calls. auto. }
    intros Ha Hn. destruct (H1' Ha Hn) as [Hop1 Hn1].
    destruct (H2' Hop1 Hn1) as [Hop2 Hn2].
    split.
    { unfold once_per_root, call_roots in *.
      by rewrite record_success_cache, record_success_calls. }
    rewrite record_success_calls. intros Hin.
    specialize (Hn2 Hin).
    (* the node that was returned *)
    set (s0 := placeholder ctx m a) in *.
    pose proof (fetch_place ctx m (begin_download m s0) Hroot Hinst)
      as (Hrp & Hip & Hig).
    destruct (world_downloadPackage ctx m s0) as [_ Hres].
    pose proof (downloadPackage_calls ctx m s0) as Hcalls.
    rewrite Hdp in Hres, Hcalls. simpl in Hres, Hcalls.
    destruct ((fetch ctx m (begin_download m s0)).2); [done|].
    injection Hres as Hnod. simpl in Hrp, Hip, Hig. rewrite <- Hnod in Hrp, Hip, Hig.
    assert (Hlo : laid_out nod) by by apply (laid_out_same m).
    assert (Hr : RootPath nod <> RootPath n).
    { rewrite Hrp. intros Heq.
      assert (Hmt : (m, true) ∈ calls s2).
      { apply H2. rewrite Hcalls. apply elem_of_app. right.
        by apply list_elem_of_singleton. }
      destruct Hop2 as [Hnd _].
      pose proof (NoDup_fmap_eq (fun c : Node * bool => RootPath c.1)
                    (calls s2) (m, true) (n, false) Hnd Hmt Hin Heq).
      congruence. }
    unfold record_success.
    destruct (IsEmptyVal nod && _); simpl;
      (destruct ((gopath ctx || local ctx) && _); simpl; [|done]);
      by destruct (Hout nod (world s2) Hlo Hr Hn2) as (_ & _ & _ & Hcp).
Qed.

End Node.

(** A walk makes its calls for roots that were not in [downloadCache] when
    it began. *)
Lemma calls_for_fresh_roots target ctx fuel nodes (s s' : State W) :
  downloadPackages fuel target ctx nodes s = Some s' ->
  downloadCache s ⊆ downloadCache s'
  /\ exists l, calls s' = calls s ++ l
               /\ forall c, c ∈ l -> RootPath c.1 ∉ downloadCache s.
Proof.
  apply (downloadPackages_rel target ctx
           (fun a b => downloadCache a ⊆ downloadCache b
              /\ exists l, calls b = calls a ++ l
                 /\ forall c, c ∈ l -> RootPath c.1 ∉ downloadCache a)).
  - intros a. split; [done|]. exists []. rewrite app_nil_r. split; [done|].
    intros c Hc. by apply elem_of_nil in Hc.
  - intros a b c [Hab (l1 & Hc1 & Hf1)] [Hbc (l2 & Hc2 & Hf2)].
    split; [set_solver|]. exists (l1 ++ l2).
    rewrite Hc2, Hc1, app_assoc. split; [done|].
    intros x [Hx|Hx]%elem_of_app; [by apply Hf1|].
    intros Hin. by apply (Hf2 x Hx), Hab.
  - intros m a. split; [done|]. exists []. rewrite app_nil_r. split; [done|].
    intros c Hc. by apply elem_of_nil in Hc.
  - intros f m a. rewrite note_skip_cache, note_skip_calls. split; [done|].
    exists []. rewrite app_nil_r. split; [done|].
    intros c Hc. by apply elem_of_nil in Hc.
  - intros m a. split; [done|]. exists []. rewrite app_nil_r. split; [done|].
    intros c Hc. by apply elem_of_nil in Hc.
  - intros m a. split; [done|]. exists []. rewrite app_nil_r. split; [done|].
    intros c Hc. by apply elem_of_nil in Hc.
  - intros m a Hm.
    rewrite downloadPackage_cache, downloadPackage_calls, placeholder_cache,
      placeholder_calls.
    split; [set_solver|]. eexists [_]. split; [done|].
    intros c Hc. apply list_elem_of_singleton in Hc as ->. done.
  - intros m a s1 n1 nod imports s2 _ _ [Hab (l1 & Hc1 & Hf1)] [Hbc (l2 & Hc2 & Hf2)].
    rewrite record_success_cache, record_success_calls.
    split; [set_solver|]. exists (l1 ++ l2).
    rewrite Hc2, Hc1, app_assoc. split; [done|].
    intros x [Hx|Hx]%elem_of_app; [by apply Hf1|].
    intros Hin. by apply (Hf2 x Hx), Hab.
Qed.

Lemma calls_for_app r cs cs' : calls_for r (cs ++ cs') = calls_for r cs ++ calls_for r cs'.
Proof. unfold calls_for. apply List.filter_app. Qed.

Lemma calls_for_none r (cs : list (Node * bool)) :
  (forall c, c ∈ cs -> RootPath c.1 <> r) -> calls_for r cs = [].
Proof.
  induction cs as [|c cs IH]; intros H; [done|].
  unfold calls_for in *. simpl. rewrite bool_decide_eq_false_2.
  - apply IH. intros x Hx. apply H. by apply elem_of_cons; right.
  - apply H. by apply elem_of_cons; left.
Qed.

Lemma calls_for_one (cs : list (Node * bool)) c :
  NoDup (map (fun c : Node * bool => RootPath c.1) cs) -> c ∈ cs ->
  calls_for (RootPath c.1) cs = [c].
Proof.
  induction cs as [|x cs IH]; intros Hnd Hin; [by apply elem_of_nil in Hin|].
  simpl in Hnd. apply NoDup_cons in Hnd as [Hx Hnd].
  change (x :: cs) with ([x] ++ cs). rewrite calls_for_app.
  apply elem_of_cons in Hin as [->|Hin].
  - rewrite (calls_for_none _ cs).
    + unfold calls_for. simpl. by rewrite bool_decide_eq_true_2.
    + intros y Hy Heq. apply Hx. rewrite <- Heq. apply list_elem_of_fmap. by exists y.
  - rewrite IH by done. unfold calls_for. simpl.
    rewrite bool_decide_eq_false_2; [done|].
    intros Heq. apply Hx. rewrite Heq. apply list_elem_of_fmap. by exists c.
Qed.

End Failed.

(** * The claims *)

Section Claims.

Context {W : Type} {E : Env W}.

(** C3.  A node [n] that gets as far as [downloadPackage] and whose fetch
    ends with the error [e], leaving the world [w] and the node [n']:
    [downloadPackage] returns [nil] and no imports; it logs the start of the
    download, then the node's import path and the cause; [failConut] goes
    up by one; the node's [InstallPath] is removed from what the fetch left.
    The turn of the loop ends there whatever the recursive call [rec] would
    do: no child is built, [downloadCount] and [setting.LocalNodes] stay as
    they were when [downloadPackage] was called, and the only call recorded
    is the failed one. *)
Theorem failed_fetch_contained rec target ctx n (s : State W) w n' imports e :
  let n0 := mark_deps_only n s in
  let s0 := placeholder ctx n0 s in
  reaches_download target ctx n s = true ->
  fetch ctx n0 (begin_download n0 s0) = (w, n', imports, Some e) ->
  exists s1,
    downloadPackage ctx n0 s0 = (s1, n', None, [])
    /\ logs s1 = logs s ++
         [Message "" ("Downloading package: " +:+ VerString n0);
          Error "get" ("Fail to download pakage: " +:+ ImportPath n');
          Error "" (tab +:+ e)]
    /\ failConut s1 = GoInt.incr (failConut s)
    /\ ((GoInt.min_int <= failConut s < GoInt.max_int)%Z ->
        failConut s1 = (failConut s + 1)%Z)
    /\ world s1 = RemoveAll w (InstallPath n')
    /\ visit rec target ctx n s = Some s1
    /\ downloadCount s1 = downloadCount s
    /\ LocalNodes s1 = LocalNodes s0
    /\ calls s1 = calls s ++ [(n0, false)].
Proof.
  intros n0 s0 Hr Hf.
  assert (Hdp : downloadPackage ctx n0 s0
                = (add_call n0 false (fail_download e w n' (begin_download n0 s0)),
                   n', None, [])).
  { unfold downloadPackage. by rewrite Hf. }
  eexists. split; [exact Hdp|].
  assert (Hfc : failConut s0 = failConut s /\ logs s0 = logs s
                /\ downloadCount s0 = downloadCount s /\ calls s0 = calls s).
  { unfold s0, placeholder. by destruct (update ctx). }
  destruct Hfc as (Hfc & Hlg & Hdc & Hcl).
  repeat split; simpl.
  - rewrite Hlg, <- !app_assoc. done.
  - by rewrite Hfc.
  - intros Hrange. rewrite Hfc. by apply GoIntFacts.incr_small.
  - rewrite (visit_reaches _ _ _ _ _ Hr). subst s0 n0. cbv zeta.
    by rewrite Hdp.
  - done.
  - by rewrite Hcl.
Qed.

(** C4, as amended.  A node whose import path is ["C"] is passed over: the
    walk goes on with the remaining nodes in the same state, nothing logged
    and nothing counted.  A node whose import path is not ["C"] and is not
    a valid remote path is rejected: one error line is logged with the
    node's label, [failConut] goes up by one, and the walk goes on with the
    remaining nodes. *)
Theorem invalid_import_rejected target ctx fuel n rest (s : State W) :
  (ImportPath n = "C" ->
   downloadPackages (S fuel) target ctx (n :: rest) s
   = downloadPackages (S fuel) target ctx rest s)
  /\ (ImportPath n <> "C" -> IsValidRemotePath (ImportPath n) = false ->
      downloadPackages (S fuel) target ctx (n :: rest) s
      = downloadPackages (S fuel) target ctx rest (reject n s)
      /\ logs (reject n s)
         = logs s ++ [Error "download" ("Skipped invalid package: " +:+ VerString n)]
      /\ failConut (reject n s) = GoInt.incr (failConut s)
      /\ ((GoInt.min_int <= failConut s < GoInt.max_int)%Z ->
          failConut (reject n s) = (failConut s + 1)%Z)
      /\ downloadCount (reject n s) = downloadCount s
      /\ calls (reject n s) = calls s).
Proof.
  split.
  - intros HC. by rewrite downloadPackages_cons, visit_marker.
  - intros HC Hv. rewrite downloadPackages_cons, visit_invalid by done.
    repeat split. intros Hrange. by apply GoIntFacts.incr_small.
Qed.

(** C8, as amended.  A node that the import-path test lets through (its
    import path is ["C"] or a valid remote path) and whose root path
    [isSubpackage] of the target is skipped in any call of
    [downloadPackages]: the walk goes on with the remaining nodes in the
    very same state, so nothing was fetched, counted or logged for it. *)
Theorem subpackage_skipped_silently target ctx fuel n rest (s : State W) :
  ImportPath n = "C" \/ IsValidRemotePath (ImportPath n) = true ->
  isSubpackage (RootPath n) target = true ->
  downloadPackages (S fuel) target ctx (n :: rest) s
  = downloadPackages (S fuel) target ctx rest s.
Proof.
  intros Hv Hs. by rewrite downloadPackages_cons, visit_subpackage.
Qed.

Lemma length_zero_iff_empty (r : string) :
  (0 <? String.length r)%nat = false <-> r = "".
Proof.
  destruct r; simpl; split; try done.
Qed.

(** C5, as amended.  When the fetch is neither an update by the VCS tool
    nor of a node marked [IsGetDepsOnly], [downloadPackage] hands the node
    to [Download]; it reads [setting.LocalNodes] first, and sets the node's
    [Revision] to the value recorded for its root path, only when the
    node's install location exists.  When it does not exist the record is
    not read and [Download] gets the node as it is. *)
Theorem fresh_fetch_reads_record ctx n (s : State W) :
  update ctx && (gopath ctx || local ctx)
    && (0 <? String.length (GetVcsName (world s) (InstallGopath n)))%nat = false ->
  IsGetDepsOnly n = false ->
  downloadPackage ctx n s
  = conclude n (begin_download n s)
      (Download (world s) ctx
         (if IsExist (world s) n
          then with_Revision (MustValue (LocalNodes s) (RootPath n) "value") n
          else n)).
Proof.
  intros Hvcs Hdeps. unfold downloadPackage, fetch. simpl.
  by rewrite Hvcs, Hdeps.
Qed.

(** C6, as amended.  A node [n] that gets as far as [downloadPackage],
    which returns the node [nod], and whose children are walked, leaving
    the state [s2]: the turn ends with [downloadCount] one above its value
    in [s2]; when [nod] is unpinned (a branch with no value) and its
    [Revision] is not empty, the revision is written to
    [setting.LocalNodes] under the node's root path; when [nod] is pinned
    or its [Revision] is empty, [setting.LocalNodes] is left as it is. *)
Theorem success_recorded rec target ctx n (s : State W) s1 n1 nod imports s2 :
  let n0 := mark_deps_only n s in
  let s' := record_success ctx nod s2 in
  reaches_download target ctx n s = true ->
  downloadPackage ctx n0 (placeholder ctx n0 s) = (s1, n1, Some nod, imports) ->
  walk_imports rec ctx n1 imports imports s1 = Some s2 ->
  visit rec target ctx n s = Some s'
  /\ downloadCount s' = GoInt.incr (downloadCount s2)
  /\ ((GoInt.min_int <= downloadCount s2 < GoInt.max_int)%Z ->
      downloadCount s' = (downloadCount s2 + 1)%Z)
  /\ (IsEmptyVal nod = true -> Revision nod <> "" ->
      LocalNodes s'
      = SetValue (LocalNodes s2) (RootPath nod) "value" (Revision nod)
      /\ MustValue (LocalNodes s') (RootPath nod) "value" = Revision nod)
  /\ (IsEmptyVal nod = false \/ Revision nod = "" ->
      LocalNodes s' = LocalNodes s2).
Proof.
  intros n0 s' Hr Hdp Hw.
  assert (Hcount : downloadCount s' = GoInt.incr (downloadCount s2)).
  { unfold s', record_success.
    destruct (IsEmptyVal nod && _); simpl;
      destruct ((gopath ctx || local ctx) && _); done. }
  split; [|split; [|split; [|split]]].
  - rewrite (visit_reaches _ _ _ _ _ Hr). subst n0. cbv zeta.
    rewrite Hdp. unfold finish_turn. by rewrite Hw.
  - done.
  - intros Hrange. rewrite Hcount. by apply GoIntFacts.incr_small.
  - intros Hu Hrev.
    assert (Hlen : (0 <? String.length (Revision nod))%nat = true).
    { destruct (0 <? String.length (Revision nod))%nat eqn:Hl; [done|].
      by apply length_zero_iff_empty in Hl. }
    assert (HL : LocalNodes s'
                 = SetValue (LocalNodes s2) (RootPath nod) "value" (Revision nod)).
    { unfold s', record_success. rewrite Hu, Hlen. simpl.
      destruct ((gopath ctx || local ctx) && _); done. }
    split; [done|]. rewrite HL. unfold MustValue, SetValue.
    by rewrite lookup_insert_eq.
  - intros Hcase.
    assert (Hno : IsEmptyVal nod && (0 <? String.length (Revision nod))%nat = false).
    { destruct Hcase as [->| ->]; [done|]. by rewrite andb_false_r. }
    unfold s', record_success. rewrite Hno. simpl.
    destruct ((gopath ctx || local ctx) && _); done.
Qed.

(** C7.  When the walk returns, [getPackages] saves the record, logs the
    counts and then either calls [os.Exit(2)] or returns: the exit code is
    2 exactly when the global [strict] flag is set and [failConut] is
    above zero at that point; otherwise [getPackages] returns and the exit
    code is 0. *)
Theorem exit_status_strict fuel target ctx nodes (s s1 : State W) :
  downloadPackages fuel target ctx nodes s = Some s1 ->
  exists s' out,
    getPackages fuel target ctx nodes s = Some (s', out)
    /\ failConut s' = failConut s1
    /\ (exit_code out = 2%Z <-> strict ctx = true /\ (0 < failConut s1)%Z)
    /\ (~ (strict ctx = true /\ (0 < failConut s1)%Z) ->
        out = None /\ exit_code out = 0%Z).
Proof.
  intros Hrun. unfold getPackages. rewrite Hrun. simpl.
  eexists _, _. split; [reflexivity|]. split; [reflexivity|].
  destruct (strict ctx); simpl.
  - destruct (0 <? failConut s1)%Z eqn:Hpos; simpl.
    + apply Z.ltb_lt in Hpos. split; [by split|]. intros Hn. by destruct Hn.
    + apply Z.ltb_ge in Hpos. split; [split; [done|intros [_ ?]; lia]|done].
  - split; [split; [done|by intros [? _]]|done].
Qed.

Lemma failed_calls_pos cs n : (n, false) ∈ cs -> 1 <= failed_calls cs.
Proof.
  intros Hin. unfold failed_calls.
  assert (Hf : In (n, false) (List.filter (fun c : Node * bool => negb c.2) cs)).
  { apply List.filter_In. split; [by apply list_elem_of_In|done]. }
  destruct (List.filter _ cs); [done|simpl; lia].
Qed.


(** C10.  With [--update] off, a node gets as far as [downloadPackage] only
    if its install location does not exist, and the call is made in the
    state [placeholder] leaves, in which [setting.LocalNodes] holds the
    empty revision under the node's root; [downloadPackage] leaves the
    record as it finds it, whether the fetch fails or not.  In a run of
    [getPackages] from the start of the process, with fetches that leave
    root paths alone, for every call of [downloadPackage] that returned
    [nil], what [setting.SaveLocalNodes] wrote at the end holds the empty
    revision under the root of its node. *)
Theorem placeholder_survives_failed_download target ctx fuel nodes w record
    (s' : State W) out n :
  update ctx = false ->
  fetch_keeps_root ->
  getPackages fuel target ctx nodes (start w record) = Some (s', out) ->
  (n, false) ∈ calls s' ->
  (forall rec tgt m (t : State W),
     reaches_download tgt ctx m t = true ->
     let m0 := mark_deps_only m t in
     IsExist (world t) m0 = false
     /\ visit rec tgt ctx m t
        = finish_turn rec ctx (downloadPackage ctx m0 (placeholder ctx m0 t))
     /\ LocalNodes (placeholder ctx m0 t)
        = SetValue (LocalNodes t) (RootPath m) "value" ""
     /\ LocalNodes (placeholder ctx m0 t) !! (RootPath m, "value") = Some ""
     /\ LocalNodes (downloadPackage ctx m0 (placeholder ctx m0 t)).1.1.1
        = LocalNodes (placeholder ctx m0 t))
  /\ savedNodes s' !! (RootPath n, "value") = Some "".
Proof.
  intros Hu Hk Hget Hn. split.
  - intros rec tgt m t Hr m0.
    split; [|split; [by apply visit_reaches|]].
    { unfold reaches_download in Hr. rewrite Hu in Hr. simpl in Hr.
      apply andb_prop in Hr as [_ Hr]. fold m0 in Hr.
      by destruct (IsExist (world t) m0). }
    rewrite downloadPackage_LocalNodes.
    unfold placeholder, m0. rewrite Hu, RootPath_mark_deps_only. simpl.
    split; [done|]. split; [by apply lookup_insert_eq|done].
  - unfold getPackages in Hget.
    destruct (downloadPackages fuel target ctx nodes (start w record))
      as [s1|] eqn:Hrun; [|done].
    injection Hget as <- _. simpl in *.
    destruct (placeholders_kept_walk _ _ _ _ _ _ Hu Hk Hrun) as [_ Hpk].
    + split; [split; [constructor|]|].
      * intros r Hr. by apply elem_of_nil in Hr.
      * intros m Hm. by apply elem_of_nil in Hm.
    + by apply Hpk.
Qed.

(** X1, termination.  When the roots of the nodes asked for and of all imports
    the collaborators can report lie in a finite set [U], the walk returns
    as soon as the fuel is above the number of roots of [U] that are not in
    [downloadCache]; and so does [getPackages]. *)
Theorem walk_returns_on_finite_graph (U : gset string) target ctx fuel nodes
    (s : State W) :
  imports_within U ->
  (forall n, n ∈ nodes -> RootPath n ∈ U) ->
  size (U ∖ downloadCache s) < fuel ->
  (exists s', downloadPackages fuel target ctx nodes s = Some s')
  /\ (exists s' out, getPackages fuel target ctx nodes s = Some (s', out)).
Proof.
  intros HU Hn Hf.
  destruct (downloadPackages_returns U HU target ctx fuel nodes s Hn Hf)
    as (s' & Hrun & _).
  split; [by exists s'|]. unfold getPackages. rewrite Hrun. by eexists _, _.
Qed.

(** More fuel.  A walk that returns with some fuel returns the same state
    with any larger fuel. *)
Theorem more_fuel_same_result fuel fuel' target ctx nodes (s s' : State W) :
  fuel <= fuel' ->
  downloadPackages fuel target ctx nodes s = Some s' ->
  downloadPackages fuel' target ctx nodes s = Some s'.
Proof.
  intros Hle Hrun. induction Hle as [|fuel' _ IH]; [done|].
  by apply downloadPackages_fuel_S.
Qed.

(** The code of C2: for each name of the import list, the children built
    are as many as the imports, all for that one name, the i-th with the
    version the gopmfile gives for the i-th import. *)
Lemma children_per_name ctx gf name imports :
  length (build_children ctx gf name imports) = length imports
  /\ (forall i imp, imports !! i = Some imp ->
        build_children ctx gf name imports !! i
        = Some (build_child ctx gf name imp))
  /\ (forall c, c ∈ build_children ctx gf name imports -> ImportPath c = name).
Proof.
  unfold build_children. split; [by rewrite length_map|]. split.
  - intros i imp Hi. change (map ?f ?l) with (f <$> l).
    by rewrite list_lookup_fmap, Hi.
  - intros c (imp & -> & _)%list_elem_of_fmap. apply ImportPath_build_child.
Qed.

(** X2, the failure counter.  In a run from the start of the process,
    [failConut] ends as the number of import paths rejected and of calls
    of [downloadPackage] that returned [nil]. *)
Theorem failures_counted_at_end target ctx fuel nodes w record (s' : State W) :
  downloadPackages fuel target ctx nodes (start w record) = Some s' ->
  failConut s'
  = GoInt.wrap (Z.of_nat (rejections (logs s') + failed_calls (calls s'))).
Proof.
  intros Hrun. by apply (failures_counted_walk _ _ _ _ _ _ Hrun).
Qed.

End Claims.

(** * The claims on examples

    The runs are evaluated, and their states are named through the call
    that computes them. *)

Lemma some_default {A : Type} (o : option A) (d : A) :
  from_option (fun _ => true) false o = true -> o = Some (default d o).
Proof. by destruct o. Qed.

Section OnTree.

#[local] Existing Instance Demo.tree_env.

(** C1 on an example: [c/z] is reached through [a/x] and through [b/y], and
    is also asked for; it is downloaded once. *)
Lemma downloader_once_per_root_witness :
  let run := downloadPackages 4 "." Demo.flags0
               [Demo.node "github.com/a/x"; Demo.node "github.com/b/y";
                Demo.node "github.com/c/z"] Demo.fresh in
  call_roots <$> run
  = Some ["github.com/a/x"; "github.com/b/y"; "github.com/c/z"]
  /\ NoDup (call_roots (default Demo.fresh run)).
Proof.
  intros run. split; [vm_compute; reflexivity|].
  apply (downloader_once_per_root "." Demo.flags0 4
           [Demo.node "github.com/a/x"; Demo.node "github.com/b/y";
            Demo.node "github.com/c/z"] Demo.fresh);
    [reflexivity | apply some_default; vm_compute; reflexivity].
Defined.

(** C3 on an example: the fetch of [github.com/c/z] fails. *)
Lemma failed_fetch_contained_witness :
  let n := Demo.node "github.com/c/z" in
  let s1 := (downloadPackage Demo.flags0 n (placeholder Demo.flags0 n Demo.fresh)).1.1.1 in
  visit (fun _ _ => None) "." Demo.flags0 n Demo.fresh = Some s1
  /\ failConut s1 = 1%Z /\ downloadCount s1 = 0%Z
  /\ calls s1 = [(n, false)].
Proof.
  intros n s1.
  pose proof (failed_fetch_contained (fun _ _ => None) "." Demo.flags0
                n Demo.fresh {["/repo/github.com/c/z"]} n [] "not found") as H.
  cbv zeta in H.
  destruct H as (s1' & Hdp & _ & _ & _ & _ & Hv & _);
    [vm_compute; reflexivity | vm_compute; reflexivity |].
  split; [|repeat split; vm_compute; reflexivity].
  rewrite Hv. f_equal. apply (f_equal (fun r => r.1.1.1)) in Hdp.
  symmetry. exact Hdp.
Defined.

(** C7 on an example: under [--strict] one failed fetch gives exit code 2. *)
Lemma exit_status_strict_witness :
  exists s' out,
    getPackages 4 "." Demo.flags_strict [Demo.node "github.com/a/x"] Demo.fresh
    = Some (s', out)
    /\ exit_code out = 2%Z.
Proof.
  pose (run := downloadPackages 4 "." Demo.flags_strict
                 [Demo.node "github.com/a/x"] Demo.fresh).
  destruct (exit_status_strict 4 "." Demo.flags_strict
              [Demo.node "github.com/a/x"] Demo.fresh (default Demo.fresh run))
    as (s' & out & Hg & _ & Hiff & _);
    [apply some_default; vm_compute; reflexivity|].
  exists s', out. split; [exact Hg|]. apply Hiff.
  split; [reflexivity | vm_compute; reflexivity].
Defined.

End OnTree.

Section OnPlain.

#[local] Existing Instance Demo.plain_env.

(** C4 as stated fails on the marker: a node ["C"] leaves [failConut] at
    zero and the log empty. *)
Lemma marker_C_neither_logged_nor_counted :
  let run := downloadPackages 1 "." Demo.flags0 [Demo.node "C"] Demo.fresh in
  ImportPath (Demo.node "C") = "C"
  /\ failConut <$> run = Some 0%Z
  /\ logs <$> run = Some [].
Proof. repeat split; vm_compute; reflexivity. Qed.

(** C4 as amended, on an example: the import ["fmt"] is not a remote path. *)
Lemma invalid_import_rejected_witness :
  downloadPackages 1 "." Demo.flags0 [Demo.node "fmt"] Demo.fresh
  = Some (reject (Demo.node "fmt") Demo.fresh)
  /\ failConut (reject (Demo.node "fmt") Demo.fresh) = 1%Z.
Proof.
  destruct (invalid_import_rejected "." Demo.flags0 0
              (Demo.node "fmt") [] Demo.fresh) as [_ H].
  destruct H as (Hrun & _ & Hf & _); [discriminate | reflexivity |].
  split; [exact Hrun | rewrite Hf; reflexivity].
Defined.

(** C8 as stated fails when the import path is not a valid remote path: the
    root path is a subpackage of the target, and yet the node is logged and
    counted as a failure. *)
Lemma invalid_subpackage_logged_and_counted :
  let run := downloadPackages 1 "mylib" Demo.flags0
               [Demo.node "mylib/util"] Demo.fresh in
  isSubpackage (RootPath (Demo.node "mylib/util")) "mylib" = true
  /\ failConut <$> run = Some 1%Z
  /\ logs <$> run
     = Some [Error "download" "Skipped invalid package: mylib/util"].
Proof. repeat split; vm_compute; reflexivity. Qed.

(** C8 as amended, on an example: a package of the project itself. *)
Lemma subpackage_skipped_silently_witness :
  downloadPackages 1 "github.com/me/app" Demo.flags0
                   [Demo.node "github.com/me/app/util"] Demo.fresh
  = Some Demo.fresh.
Proof.
  rewrite subpackage_skipped_silently;
    [reflexivity | right; reflexivity | reflexivity].
Defined.

(** C5 as stated fails when the install location does not exist: the record
    holds the revision ["abc"] for the root, [Download] is given the node
    with no revision, and what it fetches is the head ["r1"], not what
    [Download] gives for the node pinned to ["abc"]. *)
Lemma absent_install_record_not_read :
  let n := Demo.node "github.com/a/x" in
  let s := start ∅ (Demo.record "abc") in
  let pinned := with_Revision (MustValue (LocalNodes s) (RootPath n) "value") n in
  GetVcsName (world s) (InstallGopath n) = ""
  /\ IsGetDepsOnly n = false
  /\ IsExist (world s) n = false
  /\ Revision n = ""
  /\ Revision pinned = "abc"
  /\ downloadPackage Demo.flags_u n s
     = conclude n (begin_download n s) (Download (world s) Demo.flags_u n)
  /\ (downloadPackage Demo.flags_u n s).1.2 = Some (with_Revision "r1" n)
  /\ (conclude n (begin_download n s)
                (Download (world s) Demo.flags_u pinned)).1.2
     = Some (with_Revision "abc" n).
Proof. repeat split; vm_compute; reflexivity. Qed.

(** C5 as amended, on an example: the install location exists, and the
    fetch is pinned to the recorded revision. *)
Lemma fresh_fetch_reads_record_witness :
  (downloadPackage Demo.flags_u (Demo.node "github.com/a/x")
                   (start Demo.installed (Demo.record "abc"))).1.2
  = Some (with_Revision "abc" (Demo.node "github.com/a/x")).
Proof.
  rewrite fresh_fetch_reads_record;
    [vm_compute; reflexivity | reflexivity | reflexivity].
Defined.

(** C6 as stated fails when the fetch leaves no revision: an update by the
    VCS tool succeeds on an unpinned node, the download is counted, and the
    record still holds the old value. *)
Lemma unpinned_success_without_revision_not_recorded :
  let n := Demo.node "github.com/a/x" in
  let s := start Demo.checkout (Demo.record "old") in
  let run := downloadPackages 1 "." Demo.flags_ug [n] s in
  IsEmptyVal n = true
  /\ (downloadPackage Demo.flags_ug n s).1.2 = Some n
  /\ Revision n = ""
  /\ downloadCount <$> run = Some 1%Z
  /\ (fun s' => MustValue (LocalNodes s') (RootPath n) "value") <$> run
     = Some "old".
Proof. repeat split; vm_compute; reflexivity. Qed.

(** C6 as amended, on an example: a fresh fetch resolves the revision
    ["r1"], which is recorded. *)
Lemma success_recorded_witness :
  let n := Demo.node "github.com/a/x" in
  let s1 := (downloadPackage Demo.flags0 n (placeholder Demo.flags0 n Demo.fresh)).1.1.1 in
  let s' := record_success Demo.flags0 (with_Revision "r1" n) s1 in
  visit (fun _ _ => None) "." Demo.flags0 n Demo.fresh = Some s'
  /\ downloadCount s' = 1%Z
  /\ MustValue (LocalNodes s') "github.com/a/x" "value" = "r1".
Proof.
  intros n s1 s'.
  pose proof (success_recorded (fun _ _ => None) "." Demo.flags0 n Demo.fresh
                s1 (with_Revision "r1" n) (with_Revision "r1" n) [] s1) as H.
  cbv zeta in H.
  destruct H as (Hv & Hc & _ & Hw & _);
    [vm_compute; reflexivity | vm_compute; reflexivity | reflexivity |].
  split; [exact Hv|]. split; [vm_compute; reflexivity|].
  destruct Hw as [_ Hw]; [reflexivity | discriminate |]. exact Hw.
Defined.

End OnPlain.

(** The fetches of the concrete world leave root paths alone, and report
    imports among the three packages of [Demo.tree]. *)

Lemma demo_keeps_root (r : Demo.Remote) : fetch_keeps_root (E := Demo.env r).
Proof.
  split; [|done]. intros w c n. simpl. unfold Demo.fetch_demo.
  destruct (Demo.broken r (RootPath n)); [done|].
  by destruct (IsEmptyVal n && bool_decide (Revision n = "")).
Qed.

Lemma demo_keeps_install (r : Demo.Remote) : fetch_keeps_install (E := Demo.env r).
Proof.
  split; [|done]. intros w c n. simpl. unfold Demo.fetch_demo.
  destruct (Demo.broken r (RootPath n)); [done|].
  by destruct (IsEmptyVal n && bool_decide (Revision n = "")).
Qed.

Lemma demo_RemoveAll_removes (r : Demo.Remote) :
  RemoveAll_removes (E := Demo.env r).
Proof.
  intros w n. simpl. apply bool_decide_eq_false_2. set_solver.
Qed.

Lemma tree_keeps_out :
  keeps_out (E := Demo.tree_env) Demo.flags0 (Demo.node "github.com/c/z").
Proof.
  intros m w [(tp & val & Hip) Hig] Hr Hn. simpl in *.
  apply bool_decide_eq_false_1 in Hn.
  assert (Hne : InstallPath m <> "/repo/github.com/c/z").
  { rewrite Hip. intros Heq. apply Hr. simpl in Heq. by injection Heq. }
  assert (Hng : InstallGopath m <> "/repo/github.com/c/z").
  { rewrite Hig. simpl. discriminate. }
  repeat split.
  - apply bool_decide_eq_false_2. unfold Demo.fetch_demo.
    destruct (Demo.broken Demo.tree (RootPath m)); simpl; set_solver.
  - intros _. by apply bool_decide_eq_false_2.
  - apply bool_decide_eq_false_2. set_solver.
  - apply bool_decide_eq_false_2. set_solver.
Qed.

Lemma tree_imports_within :
  imports_within (E := Demo.tree_env)
    {["github.com/a/x"; "github.com/b/y"; "github.com/c/z"]}.
Proof.
  assert (H : forall root name,
             name ∈ Demo.imports_of Demo.tree root ->
             name ∈ ({["github.com/a/x"; "github.com/b/y"; "github.com/c/z"]}
                       : gset string)).
  { intros root name. simpl. repeat case_bool_decide; set_solver. }
  split.
  - intros w c n name. simpl. unfold Demo.fetch_demo.
    destruct (Demo.broken Demo.tree (RootPath n)); simpl.
    + by intros ?%elem_of_nil.
    + apply H.
  - intros w ip root dir ex name. apply H.
Qed.

Section OnTreeRuns.

#[local] Existing Instance Demo.tree_env.


(** C10 on an example: the fetch of [c/z] fails, and the saved record has
    the empty revision for it. *)
Lemma placeholder_survives_failed_download_witness :
  let run := getPackages 4 "." Demo.flags0
               [Demo.node "github.com/a/x"] Demo.fresh in
  let s' := (default (Demo.fresh, None) run).1 in
  savedNodes s' !! ("github.com/c/z", "value") = Some ""
  /\ failConut s' = 1%Z.
Proof.
  intros run s'.
  assert (Hc : calls s' = [(Demo.node "github.com/a/x", true);
                           (Demo.node "github.com/b/y", true);
                           (Demo.node "github.com/c/z", false)])
    by (vm_compute; reflexivity).
  destruct (placeholder_survives_failed_download "." Demo.flags0 4
              [Demo.node "github.com/a/x"] ∅ ∅ s'
              (default (Demo.fresh, None) run).2
              (Demo.node "github.com/c/z")) as [_ Hsaved].
  - reflexivity.
  - apply demo_keeps_root.
  - unfold s'. rewrite <- surjective_pairing.
    apply some_default. vm_compute. reflexivity.
  - rewrite Hc. repeat constructor.
  - split; [exact Hsaved | vm_compute; reflexivity].
Defined.

(** X1 on an example: three roots, fuel four. *)
Lemma walk_returns_on_finite_graph_witness :
  exists s',
    downloadPackages 4 "." Demo.flags0 [Demo.node "github.com/a/x"] Demo.fresh
    = Some s'.
Proof.
  apply (walk_returns_on_finite_graph
           {["github.com/a/x"; "github.com/b/y"; "github.com/c/z"]}).
  - apply tree_imports_within.
  - intros n ->%list_elem_of_singleton. vm_compute. set_solver.
  - vm_compute. lia.
Defined.

(** More fuel, on an example. *)
Lemma more_fuel_same_result_witness :
  downloadPackages 9 "." Demo.flags0 [Demo.node "github.com/a/x"] Demo.fresh
  = Some (default Demo.fresh
            (downloadPackages 4 "." Demo.flags0
                              [Demo.node "github.com/a/x"] Demo.fresh)).
Proof.
  apply (more_fuel_same_result 4 9); [lia|].
  apply some_default. vm_compute. reflexivity.
Defined.

(** X2 on an example. *)
Lemma failures_counted_at_end_witness :
  let run := downloadPackages 4 "." Demo.flags0
               [Demo.node "github.com/a/x"; Demo.node "fmt"] Demo.fresh in
  let s' := default Demo.fresh run in
  failConut s' = 2%Z /\ rejections (logs s') = 1 /\ failed_calls (calls s') = 1.
Proof.
  intros run s'.
  pose proof (failures_counted_at_end "." Demo.flags0 4
                [Demo.node "github.com/a/x"; Demo.node "fmt"] ∅ ∅ s') as H.
  assert (Hr : rejections (logs s') = 1) by (vm_compute; reflexivity).
  assert (Hc : failed_calls (calls s') = 1) by (vm_compute; reflexivity).
  rewrite Hr, Hc in H. split; [|by split].
  apply H. apply some_default. vm_compute. reflexivity.
Defined.

End OnTreeRuns.

Section OnPinned.

#[local] Existing Instance Demo.pinned_env.

(** C2, the code on a failing input.  [a/x] imports [b/y] and [c/z], and
    its gopmfile pins [b/y] to the tag [v1] and says nothing of [c/z].
    The children built for the name [c/z] are two nodes for [c/z], the
    first with the version of [b/y]; and the walk downloads [c/z] at the
    tag [v1]. *)
Lemma child_takes_version_of_other_import :
  let gf : ConfigFile := {[("deps", "github.com/b/y") := "tag:v1"]} in
  let imports := ["github.com/b/y"; "github.com/c/z"] in
  let run := downloadPackages 3 "." Demo.flags0
               [Demo.node "github.com/a/x"] Demo.fresh in
  MustValue gf "deps" "github.com/c/z" = ""
  /\ build_children Demo.flags0 (Some gf) "github.com/c/z" imports
     = [with_version (TAG, "v1") (Demo.node "github.com/c/z");
        Demo.node "github.com/c/z"]
  /\ map (fun c => (ImportPath c.1, Type_ c.1, Value c.1)) <$> (calls <$> run)
     = Some [("github.com/a/x", BRANCH, "");
             ("github.com/b/y", TAG, "v1");
             ("github.com/c/z", TAG, "v1")].
Proof. repeat split; vm_compute; reflexivity. Qed.

End OnPinned.

(** * The spec's scenarios, run *)

Section ScenarioA.

#[local] Existing Instance Demo.scenarioA_env.

(** Scenario A.  The manifest gives [p/a] with no version and [p/b] at
    the tag [v2.0.0]; [p/b] imports [p/c].  Three nodes are downloaded,
    [p/b] at the tag, [p/c] on the branch; three succeed, none fails. *)
Lemma scenario_A :
  let run := getPackages 3 "github.com/me/app" Demo.flags0
               [Demo.node "github.com/p/a";
                Demo.node_at "github.com/p/b" TAG "v2.0.0"] Demo.fresh in
  map (fun c => (ImportPath c.1, Type_ c.1, Value c.1, c.2))
    <$> (calls <$> (fst <$> run))
  = Some [("github.com/p/a", BRANCH, "", true);
          ("github.com/p/b", TAG, "v2.0.0", true);
          ("github.com/p/c", BRANCH, "", true)]
  /\ downloadCount <$> (fst <$> run) = Some 3%Z
  /\ failConut <$> (fst <$> run) = Some 0%Z
  /\ exit_code <$> (snd <$> run) = Some 0%Z.
Proof. repeat split; vm_compute; reflexivity. Qed.

End ScenarioA.

Section ScenarioB.

#[local] Existing Instance Demo.scenarioB_env.

(** Scenario B.  [gopm get p/x@commit:abc123 p/y], and the fetch of
    [p/x] fails: one failure, one success, no install directory for [p/x],
    [p/y] installed; exit code 0, and 2 under [--strict]. *)
Lemma scenario_B :
  let nodes := [Demo.node_at "github.com/p/x" COMMIT "abc123";
                Demo.node "github.com/p/y"] in
  let run := getPackages 2 "." Demo.flags0 nodes Demo.fresh in
  let run_strict := getPackages 2 "." Demo.flags_strict nodes Demo.fresh in
  failConut <$> (fst <$> run) = Some 1%Z
  /\ downloadCount <$> (fst <$> run) = Some 1%Z
  /\ (fun s => IsExist (world s) (Demo.node_at "github.com/p/x" COMMIT "abc123"))
       <$> (fst <$> run) = Some false
  /\ (fun s => IsExist (world s) (Demo.node "github.com/p/y"))
       <$> (fst <$> run) = Some true
  /\ exit_code <$> (snd <$> run) = Some 0%Z
  /\ exit_code <$> (snd <$> run_strict) = Some 2%Z.
Proof. repeat split; vm_compute; reflexivity. Qed.

End ScenarioB.

(** * More on the walk *)

(** ** A second induction over a walk

    As [downloadPackages_rel], but the step of a download that returns a
    node is taken together with the end of its turn: the relation need not
    hold between the call and the end of the turn. *)

Section WalkTurns.

Context {W : Type} {E : Env W}.
Variable target : string.
Variable ctx : Ctx.
Variable P : State W -> State W -> Prop.

Hypothesis P_refl : forall s, P s s.
Hypothesis P_trans : forall a b c, P a b -> P b c -> P a c.
Hypothesis P_reject : forall n s, P s (reject n s).
Hypothesis P_skip : forall f n s, P s (note_skip f n s).
Hypothesis P_copy : forall n s, P s (set_world (CopyToGopath (world s) n) s).
Hypothesis P_found : forall n s,
  P s (add_log (Log "Found gopmfile: %s" (VerString n)) s).
Hypothesis P_failed : forall n s s1 n1 imports,
  RootPath n ∉ downloadCache s ->
  downloadPackage ctx n (placeholder ctx n s) = (s1, n1, None, imports) ->
  P s s1.
Hypothesis P_turn : forall n s s1 n1 nod imports s2,
  RootPath n ∉ downloadCache s ->
  downloadPackage ctx n (placeholder ctx n s) = (s1, n1, Some nod, imports) ->
  P s1 s2 ->
  P s (record_success ctx nod s2).

Lemma walk_imports_turns (rec : list Node -> State W -> option (State W))
    n imports :
  (forall nodes s s', rec nodes s = Some s' -> P s s') ->
  forall names s s',
    walk_imports rec ctx n imports names s = Some s' -> P s s'.
Proof.
  intros Hrec names. induction names as [|name rest IH]; intros s s' Hw; simpl in Hw.
  - by simplify_eq.
  - destruct (IsFile (world s) (Join (InstallPath n) GOPMFILE)).
    + destruct (rec _ _) as [s2|] eqn:Hr; [|done].
      eapply P_trans; [apply P_found|]. eapply P_trans; [by eapply Hrec|by apply IH].
    + destruct (rec _ _) as [s2|] eqn:Hr; [|done].
      eapply P_trans; [by eapply Hrec|by apply IH].
Qed.

Lemma visit_turns (rec : list Node -> State W -> option (State W)) :
  (forall nodes s s', rec nodes s = Some s' -> P s s') ->
  forall n s s', visit rec target ctx n s = Some s' -> P s s'.
Proof.
  intros Hrec n s s' Hv. unfold visit in Hv.
  case_bool_decide; [by simplify_eq|].
  destruct (IsValidRemotePath (ImportPath n)); simpl in Hv; [|by simplify_eq].
  destruct (isSubpackage (RootPath n) target); [by simplify_eq|].
  set (n0 := mark_deps_only n s) in *.
  case_bool_decide as Hc; [by simplify_eq|].
  destruct (negb (update ctx) && IsExist (world s) n0).
  { simplify_eq. destruct (gopath ctx || local ctx); [|done].
    eapply P_trans; [apply P_skip|apply P_copy]. }
  destruct (downloadPackage ctx n0 (placeholder ctx n0 s))
    as [[[s1 n1] nod] imports] eqn:Hdp.
  unfold finish_turn in Hv.
  destruct (walk_imports rec ctx n1 imports imports s1) as [s2|] eqn:Hw; [|done].
  pose proof (walk_imports_turns rec n1 imports Hrec _ _ _ Hw) as H12.
  destruct nod as [nod|]; simplify_eq.
  - by eapply P_turn.
  - eapply P_trans; [by eapply P_failed|done].
Qed.

Lemma walk_turns (rec : list Node -> State W -> option (State W)) :
  (forall nodes s s', rec nodes s = Some s' -> P s s') ->
  forall nodes s s', walk rec target ctx nodes s = Some s' -> P s s'.
Proof.
  intros Hrec nodes. induction nodes as [|n rest IH]; intros s s' Hw; simpl in Hw.
  - by simplify_eq.
  - destruct (visit rec target ctx n s) as [s1|] eqn:Hv; [|done].
    eapply P_trans; [by eapply visit_turns|by apply IH].
Qed.

Lemma downloadPackages_turns fuel nodes s s' :
  downloadPackages fuel target ctx nodes s = Some s' -> P s s'.
Proof.
  revert nodes s s'. induction fuel as [|fuel IH]; intros nodes s s' H; [done|].
  simpl in H. by eapply walk_turns.
Qed.

End WalkTurns.

Section WalkMore.

Context {W : Type} {E : Env W}.

(** X7, the walk over two lists.  A call of [downloadPackages] on
    [l1 ++ l2] is the call on [l1] followed, in the state it leaves, by the
    call on [l2]; it does not return when either does not. *)
Theorem downloadPackages_app fuel target ctx l1 l2 (s : State W) :
  downloadPackages fuel target ctx (l1 ++ l2) s
  = match downloadPackages fuel target ctx l1 s with
    | Some s1 => downloadPackages fuel target ctx l2 s1
    | None => None
    end.
Proof.
  destruct fuel as [|fuel]; [done|]. simpl.
  revert s. induction l1 as [|n l1 IH]; intros s; simpl; [done|].
  destruct (visit _ target ctx n s) as [s1|]; [apply IH|done].
Qed.

(** *** [downloadCount] counts the downloads that returned a node *)

Lemma wrap_wrap_add (x y : Z) :
  GoInt.wrap (GoInt.wrap x + y) = GoInt.wrap (x + y).
Proof.
  unfold GoInt.wrap.
  replace ((x - GoInt.min_int) mod 2 ^ 64 + GoInt.min_int + y - GoInt.min_int)%Z
    with ((x - GoInt.min_int) mod 2 ^ 64 + y)%Z by lia.
  replace (x + y - GoInt.min_int)%Z with ((x - GoInt.min_int) + y)%Z by lia.
  by rewrite Z.add_mod_idemp_l.
Qed.

Lemma ok_calls_app cs cs' : ok_calls (cs ++ cs') = ok_calls cs + ok_calls cs'.
Proof. unfold ok_calls. by rewrite List.filter_app, length_app. Qed.

Lemma counts_downloads_same (a b : State W) :
  calls b = calls a -> downloadCount b = downloadCount a ->
  counts_downloads a b.
Proof.
  intros Hc Hd k Hk. exists []. rewrite app_nil_r. split; [done|].
  rewrite Hd, Hk. f_equal. unfold ok_calls. simpl. lia.
Qed.

Lemma counts_downloads_walk target ctx fuel nodes (s s' : State W) :
  downloadPackages fuel target ctx nodes s = Some s' -> counts_downloads s s'.
Proof.
  apply (downloadPackages_turns target ctx counts_downloads).
  - intros a. by apply counts_downloads_same.
  - intros a b c Hab Hbc k Hk.
    destruct (Hab k Hk) as (l1 & Hc1 & Hd1).
    destruct (Hbc _ Hd1) as (l2 & Hc2 & Hd2).
    exists (l1 ++ l2). rewrite Hc2, Hc1, app_assoc. split; [done|].
    rewrite Hd2, ok_calls_app. f_equal. lia.
  - intros n a. by apply counts_downloads_same.
  - intros f n a. apply counts_downloads_same.
    + apply note_skip_calls.
    + unfold note_skip. by case_bool_decide.
  - intros n a. by apply counts_downloads_same.
  - intros n a. by apply counts_downloads_same.
  - intros n a s1 n1 imports _ Hdp k Hk.
    pose proof (downloadPackage_calls ctx n (placeholder ctx n a)) as Hc.
    pose proof (downloadPackage_downloadCount ctx n (placeholder ctx n a)) as Hd.
    rewrite Hdp in Hc, Hd. simpl in Hc, Hd.
    rewrite placeholder_calls in Hc.
    exists [(n, false)]. split; [done|].
    rewrite Hd. replace (downloadCount (placeholder ctx n a)) with (downloadCount a)
      by (unfold placeholder; by destruct (update ctx)).
    rewrite Hk. f_equal.
    replace (ok_calls [(n, false)]) with 0 by reflexivity. lia.
  - intros n a s1 n1 nod imports s2 _ Hdp H12 k Hk.
    pose proof (downloadPackage_calls ctx n (placeholder ctx n a)) as Hc.
    pose proof (downloadPackage_downloadCount ctx n (placeholder ctx n a)) as Hd.
    rewrite Hdp in Hc, Hd. simpl in Hc, Hd.
    rewrite placeholder_calls in Hc.
    replace (downloadCount (placeholder ctx n a)) with (downloadCount a) in Hd
      by (unfold placeholder; by destruct (update ctx)).
    destruct (H12 k) as (l & Hc2 & Hd2); [by rewrite Hd|].
    exists ((n, true) :: l). rewrite record_success_calls.
    split; [by rewrite Hc2, Hc, <- app_assoc|].
    assert (Hrs : downloadCount (record_success ctx nod s2)
                  = GoInt.incr (downloadCount s2)).
    { unfold record_success.
      destruct (IsEmptyVal nod && _); simpl;
        destruct ((gopath ctx || local ctx) && _); done. }
    rewrite Hrs, Hd2, incr_wrap. f_equal.
    change ((n, true) :: l) with ([(n, true)] ++ l). rewrite ok_calls_app.
    replace (ok_calls [(n, true)]) with 1 by reflexivity. lia.
Qed.

Lemma wrap_small (z : Z) :
  (GoInt.min_int <= z <= GoInt.max_int)%Z -> GoInt.wrap z = z.
Proof.
  unfold GoInt.wrap, GoInt.min_int, GoInt.max_int. intros Hz.
  rewrite Z.mod_small; lia.
Qed.

Lemma wrap_add_wrap (x y : Z) :
  GoInt.wrap (GoInt.wrap x + GoInt.wrap y) = GoInt.wrap (x + y).
Proof.
  rewrite wrap_wrap_add, Z.add_comm, wrap_wrap_add. f_equal. lia.
Qed.

Lemma calls_split (cs : list (Node * bool)) :
  length cs = ok_calls cs + failed_calls cs.
Proof.
  unfold ok_calls, failed_calls.
  induction cs as [|[n [|]] cs IH]; simpl; lia.
Qed.

(** X3, the download counter.  In a walk from the start of the process
    that returns, [downloadCount] ends as the number of calls of
    [downloadPackage] that returned a node, and the two counters together
    count every call once: [downloadCount + failConut] is, modulo the
    wrap-around of [int], the number of calls plus the number of rejected
    import paths, and is that number when it fits an [int]. *)
Theorem downloads_counted_at_end target ctx fuel nodes w record (s' : State W) :
  downloadPackages fuel target ctx nodes (start w record) = Some s' ->
  downloadCount s' = GoInt.wrap (Z.of_nat (ok_calls (calls s')))
  /\ GoInt.wrap (downloadCount s' + failConut s')
     = GoInt.wrap (Z.of_nat (length (calls s') + rejections (logs s')))
  /\ ((Z.of_nat (length (calls s') + rejections (logs s')) <= GoInt.max_int)%Z ->
      (downloadCount s' + failConut s')%Z
      = Z.of_nat (length (calls s') + rejections (logs s'))).
Proof.
  intros Hrun.
  assert (Hd : downloadCount s' = GoInt.wrap (Z.of_nat (ok_calls (calls s')))).
  { destruct (counts_downloads_walk _ _ _ _ _ _ Hrun 0%Z) as (l & Hc & Hd);
      [done|].
    simpl in Hc. by rewrite Hc, Hd. }
  assert (Hf : failures_counted s')
    by by apply (failures_counted_walk _ _ _ _ _ _ Hrun).
  unfold failures_counted in Hf.
  pose proof (calls_split (calls s')) as Hl.
  split; [done|]. split.
  - rewrite Hd, Hf, wrap_add_wrap. f_equal. lia.
  - intros Hfit. rewrite Hd, Hf.
    rewrite !wrap_small; unfold GoInt.min_int, GoInt.max_int in *; lia.
Qed.

End WalkMore.

Section WalkSets.

Context {W : Type} {E : Env W}.

(** *** [downloadCache] is the set of roots downloaded *)

Lemma calls_have_distinct_roots target ctx fuel nodes (s s' : State W) :
  calls s = [] ->
  downloadPackages fuel target ctx nodes s = Some s' ->
  NoDup (call_roots s').
Proof.
  intros Hc Hrun.
  apply (once_per_root_walk _ _ _ _ _ _ Hrun).
  unfold once_per_root, call_roots. rewrite Hc. split; [constructor|].
  intros r Hr. by apply elem_of_nil in Hr.
Qed.

Lemma cache_grows_by_calls target ctx fuel nodes (s s' : State W) :
  downloadPackages fuel target ctx nodes s = Some s' ->
  exists l, calls s' = calls s ++ l
            /\ downloadCache s'
               = downloadCache s ∪ list_to_set (map (fun c => RootPath c.1) l).
Proof.
  apply (downloadPackages_rel target ctx
           (fun a b => exists l, calls b = calls a ++ l
              /\ downloadCache b
                 = downloadCache a ∪ list_to_set (map (fun c => RootPath c.1) l))).
  - intros a. exists []. rewrite app_nil_r. split; [done|]. simpl. set_solver.
  - intros a b c (l1 & Hc1 & Hd1) (l2 & Hc2 & Hd2). exists (l1 ++ l2).
    rewrite Hc2, Hc1, app_assoc. split; [done|].
    rewrite Hd2, Hd1, map_app, list_to_set_app_L. set_solver.
  - intros n a. exists []. rewrite app_nil_r. split; [done|]. simpl. set_solver.
  - intros f n a. exists []. rewrite app_nil_r, note_skip_calls, note_skip_cache.
    split; [done|]. simpl. set_solver.
  - intros n a. exists []. rewrite app_nil_r. split; [done|]. simpl. set_solver.
  - intros n a. exists []. rewrite app_nil_r. split; [done|]. simpl. set_solver.
  - intros n a _. eexists [_].
    rewrite downloadPackage_calls, downloadPackage_cache, placeholder_calls,
      placeholder_cache.
    split; [done|]. simpl. set_solver.
  - intros n a s1 n1 nod imports s2 _ _ (l1 & Hc1 & Hd1) (l2 & Hc2 & Hd2).
    exists (l1 ++ l2). rewrite record_success_calls, record_success_cache.
    rewrite Hc2, Hc1, app_assoc. split; [done|].
    rewrite Hd2, Hd1, map_app, list_to_set_app_L. set_solver.
Qed.

Lemma cache_grows target ctx fuel nodes (s s' : State W) :
  downloadPackages fuel target ctx nodes s = Some s' ->
  downloadCache s ⊆ downloadCache s'.
Proof.
  intros Hrun. destruct (cache_grows_by_calls _ _ _ _ _ _ Hrun) as (l & _ & ->).
  set_solver.
Qed.

Lemma walk_imports_cache_grows target ctx fuel n imports names (s s' : State W) :
  walk_imports (downloadPackages fuel target ctx) ctx n imports names s = Some s' ->
  downloadCache s ⊆ downloadCache s'.
Proof.
  apply (walk_imports_rel ctx (fun a b => downloadCache a ⊆ downloadCache b)).
  - done.
  - intros a b c Hab Hbc. set_solver.
  - done.
  - intros nodes a b. apply cache_grows.
Qed.

(** X4, the visited set.  In a walk from the start of the process that
    returns, [downloadCache] is exactly the set of root paths
    [downloadPackage] was called on, and has as many elements as there
    were calls: a node that is rejected, skipped as part of the target or
    skipped as installed does not enter it. *)
Theorem cache_is_called_roots target ctx fuel nodes w record (s' : State W) :
  downloadPackages fuel target ctx nodes (start w record) = Some s' ->
  downloadCache s' = list_to_set (call_roots s')
  /\ size (downloadCache s') = length (calls s').
Proof.
  intros Hrun.
  destruct (cache_grows_by_calls _ _ _ _ _ _ Hrun) as (l & Hc & Hd).
  simpl in Hc, Hd.
  assert (Heq : downloadCache s' = list_to_set (call_roots s')).
  { unfold call_roots. rewrite Hc, Hd. set_solver. }
  split; [done|]. rewrite Heq, size_list_to_set.
  - unfold call_roots. by rewrite length_map.
  - by apply (calls_have_distinct_roots target ctx fuel nodes (start w record)).
Qed.

End WalkSets.

Section WalkNotices.

Context {W : Type} {E : Env W}.

(** *** One skip notice per root *)

Lemma skip_notices_snoc l x :
  skip_notices (l ++ [x]) = skip_notices l + (if is_notice x then 1 else 0).
Proof.
  unfold skip_notices. rewrite List.filter_app, length_app. simpl.
  by destruct (is_notice x).
Qed.

Lemma notices_follow_skipCache target ctx fuel nodes (s s' : State W) :
  downloadPackages fuel target ctx nodes s = Some s' ->
  skipCache s ⊆ skipCache s'
  /\ skip_notices (logs s') + size (skipCache s)
     = skip_notices (logs s) + size (skipCache s').
Proof.
  apply (downloadPackages_rel target ctx
           (fun a b => skipCache a ⊆ skipCache b
              /\ skip_notices (logs b) + size (skipCache a)
                 = skip_notices (logs a) + size (skipCache b))).
  - done.
  - intros a b c [Hs1 He1] [Hs2 He2]. split; [set_solver|lia].
  - intros n a. simpl. rewrite skip_notices_snoc. simpl. split; [done|lia].
  - intros f n a. unfold note_skip. case_bool_decide as Hin; [done|]. simpl.
    rewrite skip_notices_snoc. simpl. split; [set_solver|].
    rewrite size_union by set_solver. rewrite size_singleton. lia.
  - done.
  - intros n a. simpl. rewrite skip_notices_snoc. simpl. split; [done|lia].
  - intros n a _. rewrite downloadPackage_skipCache.
    assert (Hp : skipCache (placeholder ctx n a) = skipCache a
                 /\ logs (placeholder ctx n a) = logs a).
    { unfold placeholder. by destruct (update ctx). }
    destruct Hp as [-> Hl]. split; [done|]. f_equal.
    unfold downloadPackage, conclude.
    destruct (fetch ctx n _) as [[[w n'] imports] [e|]]; simpl;
      rewrite ?skip_notices_snoc, Hl; simpl; lia.
  - intros n a s1 n1 nod imports s2 _ _ [Hs1 He1] [Hs2 He2].
    assert (Hr : skipCache (record_success ctx nod s2) = skipCache s2
                 /\ skip_notices (logs (record_success ctx nod s2))
                    = skip_notices (logs s2)).
    { unfold record_success.
      destruct (IsEmptyVal nod && _); simpl;
        destruct ((gopath ctx || local ctx) && _); simpl;
        rewrite skip_notices_snoc; simpl; split; try done; lia. }
    destruct Hr as [-> ->]. split; [set_solver|lia].
Qed.

Lemma walk_app rec target ctx l1 l2 (s : State W) :
  walk rec target ctx (l1 ++ l2) s
  = match walk rec target ctx l1 s with
    | Some s1 => walk rec target ctx l2 s1
    | None => None
    end.
Proof.
  revert s. induction l1 as [|n l1 IH]; intros s; simpl; [done|].
  destruct (visit rec target ctx n s) as [s1|]; [apply IH|done].
Qed.

Lemma skipCache_grows target ctx fuel nodes (s s' : State W) :
  downloadPackages fuel target ctx nodes s = Some s' ->
  skipCache s ⊆ skipCache s'.
Proof. intros Hrun. by destruct (notices_follow_skipCache _ _ _ _ _ _ Hrun). Qed.

Lemma note_skip_in f n (s : State W) : RootPath n ∈ skipCache (note_skip f n s).
Proof. unfold note_skip. case_bool_decide; [done|]. simpl. set_solver. Qed.

Lemma note_skip_skipCache f n (s : State W) :
  skipCache (note_skip f n s) = {[RootPath n]} ∪ skipCache s.
Proof. unfold note_skip. case_bool_decide; simpl; set_solver. Qed.

Lemma note_skip_logs f n (s : State W) :
  logs (note_skip f n s)
  = if bool_decide (RootPath n ∈ skipCache s) then logs s
    else logs s ++ [Trace f (VerString n)].
Proof. unfold note_skip. by case_bool_decide. Qed.

(** After the turn of a node that passes the tests, its root is in
    [downloadCache] or in [skipCache]. *)
Lemma visit_caches target ctx fuel n (s s' : State W) :
  ImportPath n <> "C" ->
  IsValidRemotePath (ImportPath n) = true ->
  isSubpackage (RootPath n) target = false ->
  visit (downloadPackages fuel target ctx) target ctx n s = Some s' ->
  RootPath n ∈ downloadCache s' \/ RootPath n ∈ skipCache s'.
Proof.
  intros HC Hv Hs. unfold visit.
  rewrite bool_decide_eq_false_2 by done. rewrite Hv, Hs. simpl.
  pose proof (RootPath_mark_deps_only n s) as Hroot.
  set (n0 := mark_deps_only n s) in *.
  case_bool_decide as Hc.
  { intros [= <-]. right. rewrite <- Hroot. apply note_skip_in. }
  destruct (negb (update ctx) && IsExist (world s) n0).
  { intros [= <-]. right. rewrite <- Hroot.
    destruct (gopath ctx || local ctx); apply note_skip_in. }
  pose proof (downloadPackage_cache ctx n0 (placeholder ctx n0 s)) as Hd.
  destruct (downloadPackage ctx n0 (placeholder ctx n0 s))
    as [[[s1 n1] nod] imports]. simpl in Hd. unfold finish_turn.
  destruct (walk_imports _ ctx n1 imports imports s1) as [s2|] eqn:Hw; [|done].
  apply walk_imports_cache_grows in Hw.
  assert (Hin : RootPath n ∈ downloadCache s2).
  { apply Hw. rewrite Hd, <- Hroot. set_solver. }
  destruct nod as [nod|]; intros [= <-]; left;
    [by rewrite record_success_cache|done].
Qed.

(** The turn of a node that passes the tests and whose root is in either
    cache leaves the root in [skipCache]. *)
Lemma visit_again target ctx fuel n (s s' : State W) :
  ImportPath n <> "C" ->
  IsValidRemotePath (ImportPath n) = true ->
  isSubpackage (RootPath n) target = false ->
  RootPath n ∈ downloadCache s \/ RootPath n ∈ skipCache s ->
  visit (downloadPackages fuel target ctx) target ctx n s = Some s' ->
  RootPath n ∈ skipCache s'.
Proof.
  intros HC Hv Hs [Hin|Hin] Hvis.
  - rewrite visit_cached in Hvis by done. injection Hvis as <-.
    rewrite <- (RootPath_mark_deps_only n s). apply note_skip_in.
  - assert (Hrun : downloadPackages (S fuel) target ctx [n] s = Some s').
    { rewrite downloadPackages_cons, Hvis. done. }
    by apply (skipCache_grows _ _ _ _ _ _ Hrun).
Qed.

(** X5, the skip notices.  In a walk from the start of the process that
    returns, the number of skip notices logged (for a package already
    downloaded or already installed) is the number of roots in
    [skipCache].  A root given twice in the list, by nodes that pass the
    tests, is in [skipCache] at the end.  The turn of a node that passes
    the tests and is skipped, its root being in [downloadCache] or, with
    [--update] off, its install being there, puts the root in [skipCache]
    and logs one notice for the node if the root was not yet there, and
    nothing if it was: a root gets one notice, however often it is
    skipped. *)
Theorem one_skip_notice_per_root target ctx fuel nodes w record (s' : State W) :
  downloadPackages fuel target ctx nodes (start w record) = Some s' ->
  skip_notices (logs s') = size (skipCache s')
  /\ (forall l1 m1 l2 m2 l3,
        nodes = l1 ++ m1 :: l2 ++ m2 :: l3 ->
        RootPath m2 = RootPath m1 ->
        ImportPath m1 <> "C" -> IsValidRemotePath (ImportPath m1) = true ->
        ImportPath m2 <> "C" -> IsValidRemotePath (ImportPath m2) = true ->
        isSubpackage (RootPath m1) target = false ->
        RootPath m1 ∈ skipCache s')
  /\ (forall rec m (t : State W),
        ImportPath m <> "C" -> IsValidRemotePath (ImportPath m) = true ->
        isSubpackage (RootPath m) target = false ->
        RootPath m ∈ downloadCache t
        \/ (update ctx = false
            /\ IsExist (world t) (mark_deps_only m t) = true) ->
        exists t',
          visit rec target ctx m t = Some t'
          /\ skipCache t' = {[RootPath m]} ∪ skipCache t
          /\ (RootPath m ∈ skipCache t -> logs t' = logs t)
          /\ (RootPath m ∉ skipCache t ->
              exists format,
                logs t' = logs t
                          ++ [Trace format (VerString (mark_deps_only m t))])).
Proof.
  intros Hrun. split; [|split].
  - destruct (notices_follow_skipCache _ _ _ _ _ _ Hrun) as [_ He].
    change (skipCache (start w record)) with (∅ : gset string) in He.
    change (skip_notices (logs (start w record))) with 0 in He.
    rewrite size_empty in He. lia.
  - intros l1 m1 l2 m2 l3 -> Hr HC1 Hv1 HC2 Hv2 Hs.
    destruct fuel as [|fuel]; [done|].
    change (downloadPackages (S fuel) target ctx) with
      (walk (downloadPackages fuel target ctx) target ctx) in Hrun.
    rewrite walk_app in Hrun.
    destruct (walk _ target ctx l1 _) as [sa|]; [|done]. simpl in Hrun.
    destruct (visit _ target ctx m1 sa) as [sb|] eqn:Hvis1; [|done].
    rewrite walk_app in Hrun.
    destruct (walk _ target ctx l2 sb) as [sc|] eqn:Hw2; [|done]. simpl in Hrun.
    destruct (visit _ target ctx m2 sc) as [sd|] eqn:Hvis2; [|done].
    change (walk (downloadPackages fuel target ctx) target ctx) with
      (downloadPackages (S fuel) target ctx) in Hrun, Hw2.
    apply (skipCache_grows _ _ _ _ _ _ Hrun).
    rewrite <- Hr. apply (visit_again target ctx fuel m2 sc); [done|done|by rewrite Hr| |done].
    rewrite Hr.
    destruct (visit_caches target ctx fuel m1 sa sb HC1 Hv1 Hs Hvis1) as [Hin|Hin].
    + left. by apply (cache_grows _ _ _ _ _ _ Hw2).
    + right. by apply (skipCache_grows _ _ _ _ _ _ Hw2).
  - intros rec m t HC Hv Hs Hcase. unfold visit.
    rewrite bool_decide_eq_false_2 by done. rewrite Hv, Hs. simpl.
    pose proof (RootPath_mark_deps_only m t) as Hroot.
    set (m0 := mark_deps_only m t) in *.
    assert (Hnote : forall f (u : State W),
              u = note_skip f m0 t \/
              u = set_world (CopyToGopath (world (note_skip f m0 t)) m0)
                            (note_skip f m0 t) ->
              skipCache u = {[RootPath m]} ∪ skipCache t
              /\ (RootPath m ∈ skipCache t -> logs u = logs t)
              /\ (RootPath m ∉ skipCache t ->
                  exists format, logs u = logs t ++ [Trace format (VerString m0)])).
    { intros f u Hu.
      assert (Hsk : skipCache u = skipCache (note_skip f m0 t)
                    /\ logs u = logs (note_skip f m0 t))
        by (destruct Hu as [->| ->]; done).
      destruct Hsk as [-> ->].
      rewrite note_skip_skipCache, note_skip_logs, Hroot.
      split; [done|]. split; intros Hin.
      - by rewrite bool_decide_eq_true_2.
      - rewrite bool_decide_eq_false_2 by done. by exists f. }
    case_bool_decide as Hc.
    { eexists. split; [done|].
      apply (Hnote "Skipped downloaded package: %s"). by left. }
    destruct Hcase as [Hin|[Hu Hex]]; [by rewrite Hroot in Hc|].
    rewrite Hu, Hex. simpl.
    eexists. split; [done|].
    destruct (gopath ctx || local ctx); apply (Hnote "Skipped installed package: %s");
      [by right|by left].
Qed.

(** *** What the walk leaves of the record *)

Lemma record_frame_walk target ctx fuel nodes (s s' : State W) :
  fetch_keeps_root ->
  downloadPackages fuel target ctx nodes s = Some s' ->
  downloadCache s ⊆ downloadCache s'
  /\ savedNodes s' = savedNodes s
  /\ dom (LocalNodes s) ⊆ dom (LocalNodes s')
  /\ forall sec key,
       key <> "value" \/ sec ∈ downloadCache s \/ sec ∉ downloadCache s' ->
       LocalNodes s' !! (sec, key) = LocalNodes s !! (sec, key).
Proof.
  intros Hk.
  apply (downloadPackages_rel target ctx
           (fun a b => downloadCache a ⊆ downloadCache b
              /\ savedNodes b = savedNodes a
              /\ dom (LocalNodes a) ⊆ dom (LocalNodes b)
              /\ forall sec key,
                   key <> "value" \/ sec ∈ downloadCache a
                   \/ sec ∉ downloadCache b ->
                   LocalNodes b !! (sec, key) = LocalNodes a !! (sec, key))).
  - done.
  - intros a b c (Hc1 & Hs1 & Hd1 & Hf1) (Hc2 & Hs2 & Hd2 & Hf2).
    split; [set_solver|]. split; [congruence|]. split; [set_solver|].
    intros sec key Hcase. rewrite Hf2, Hf1; [done|..].
    + destruct Hcase as [?|[?|?]]; [by left|by right; left|right; right].
      set_solver.
    + destruct Hcase as [?|[?|?]]; [by left|right; left|by right; right].
      set_solver.
  - done.
  - intros f n a. rewrite note_skip_cache. unfold note_skip.
    by case_bool_decide.
  - done.
  - done.
  - intros n a Hn. rewrite downloadPackage_cache, placeholder_cache,
      downloadPackage_LocalNodes.
    split; [set_solver|]. split.
    { unfold downloadPackage, conclude.
      destruct (fetch ctx n _) as [[[w n'] imports] [e|]]; simpl;
        unfold placeholder; by destruct (update ctx). }
    unfold placeholder. destruct (update ctx); simpl; [done|]. split.
    { unfold SetValue. rewrite dom_insert_L. set_solver. }
    intros sec key Hcase. unfold SetValue. rewrite lookup_insert_ne; [done|].
    intros [= <- <-]. destruct Hcase as [?|[?|?]]; [done|done|set_solver].
  - intros n a s1 n1 nod imports s2 Hn Hdp (Hc1 & Hs1 & Hd1 & Hf1)
      (Hc2 & Hs2 & Hd2 & Hf2).
    assert (Hroot : RootPath nod = RootPath n).
    { apply (downloadPackage_root ctx n (placeholder ctx n a)); [done|].
      by rewrite Hdp. }
    assert (Hin : RootPath n ∈ downloadCache s1).
    { pose proof (downloadPackage_cache ctx n (placeholder ctx n a)) as Hc.
      rewrite Hdp in Hc. simpl in Hc. rewrite Hc. set_solver. }
    rewrite record_success_cache.
    split; [set_solver|]. split.
    { unfold record_success.
      destruct (IsEmptyVal nod && _); simpl;
        destruct ((gopath ctx || local ctx) && _); simpl; congruence. }
    split.
    { transitivity (dom (LocalNodes s2)); [set_solver|].
      unfold record_success.
      destruct (IsEmptyVal nod && _); simpl;
        destruct ((gopath ctx || local ctx) && _); simpl; try done;
        unfold SetValue; rewrite dom_insert_L; set_solver. }
    intros sec key Hcase.
    rewrite record_success_LocalNodes_other.
    + rewrite Hf2, Hf1; [done|..].
      * destruct Hcase as [?|[?|?]]; [by left|by right; left|right; right].
        set_solver.
      * destruct Hcase as [?|[?|?]]; [by left|right; left|by right; right].
        set_solver.
    + rewrite Hroot. intros [= -> ->].
      destruct Hcase as [?|[?|?]]; [done|done|set_solver].
Qed.

(** X6, the record outside the run.  With fetches that leave root paths
    alone, a walk that returns changes [setting.LocalNodes] only under the
    key ["value"] of roots that entered [downloadCache] during the walk:
    every other entry reads as before, no entry is removed, and nothing is
    saved by the walk itself. *)
Theorem record_changes_only_for_downloaded_roots target ctx fuel nodes
    (s s' : State W) :
  fetch_keeps_root ->
  downloadPackages fuel target ctx nodes s = Some s' ->
  (forall sec key,
     key <> "value" \/ sec ∈ downloadCache s \/ sec ∉ downloadCache s' ->
     LocalNodes s' !! (sec, key) = LocalNodes s !! (sec, key))
  /\ dom (LocalNodes s) ⊆ dom (LocalNodes s')
  /\ savedNodes s' = savedNodes s.
Proof.
  intros Hk Hrun.
  destruct (record_frame_walk _ _ _ _ _ _ Hk Hrun) as (_ & Hs & Hd & Hf).
  done.
Qed.

End WalkNotices.

(** * Installed packages *)

Section Installed.

Context {W : Type} {E : Env W}.

(** X8, an installed package without [--update].  A node that passes the
    tests, whose root was not downloaded in this run and whose install
    location exists is not handed to [downloadPackage]: the turn ends with
    the root still out of [downloadCache], the record and the counters as
    they were, and the world changed only by [CopyToGopath] under
    [--gopath] or [--local]. Its imports are not looked at. *)
Theorem installed_package_skipped target ctx fuel n rest (s : State W) :
  update ctx = false ->
  ImportPath n <> "C" ->
  IsValidRemotePath (ImportPath n) = true ->
  isSubpackage (RootPath n) target = false ->
  RootPath n ∉ downloadCache s ->
  IsExist (world s) (mark_deps_only n s) = true ->
  let s' := skip_installed ctx (mark_deps_only n s) s in
  downloadPackages (S fuel) target ctx (n :: rest) s
  = downloadPackages (S fuel) target ctx rest s'
  /\ calls s' = calls s
  /\ downloadCache s' = downloadCache s
  /\ LocalNodes s' = LocalNodes s
  /\ downloadCount s' = downloadCount s
  /\ failConut s' = failConut s
  /\ world s'
     = if gopath ctx || local ctx
       then CopyToGopath (world s) (mark_deps_only n s)
       else world s.
Proof.
  intros Hu HC Hv Hs Hc He s'. split.
  - rewrite downloadPackages_cons. unfold visit.
    rewrite bool_decide_eq_false_2 by done. rewrite Hv, Hs. simpl.
    rewrite bool_decide_eq_false_2 by (by rewrite RootPath_mark_deps_only).
    by rewrite Hu, He.
  - unfold s', skip_installed, note_skip.
    case_bool_decide; destruct (gopath ctx || local ctx); done.
Qed.

(** X9, a fixed installed package under [--update].  A node that passes
    the tests, is fixed and installed, and is not updated by the VCS tool,
    is handed to [downloadPackage] marked [IsGetDepsOnly]: no fetch is made
    (the world is left as it is), the call cannot fail, and the imports
    walked are those read from the install location, or none when
    [IsGetDeps] is off. *)
Theorem fixed_installed_not_fetched rec target ctx n (s : State W) :
  update ctx = true ->
  reaches_download target ctx n s = true ->
  IsFixed n = true ->
  IsExist (world s) n = true ->
  updates_by_vcs ctx n s = false ->
  let n0 := with_IsGetDepsOnly true n in
  let imports :=
    if IsGetDeps n
    then GetImports (world s) (ImportPath n) (RootPath n) (InstallPath n) false
    else [] in
  exists s1,
    downloadPackage ctx n0 s = (s1, n0, Some n0, imports)
    /\ visit rec target ctx n s = finish_turn rec ctx (s1, n0, Some n0, imports)
    /\ world s1 = world s
    /\ failConut s1 = failConut s
    /\ LocalNodes s1 = LocalNodes s
    /\ calls s1 = calls s ++ [(n0, true)].
Proof.
  intros Hu Hr Hf He Hvcs n0 imports.
  assert (Hmark : mark_deps_only n s = n0).
  { unfold mark_deps_only. by rewrite Hf, He. }
  assert (Hdp : downloadPackage ctx n0 s
                = (add_call n0 true (begin_download n0 s), n0, Some n0, imports)).
  { unfold downloadPackage, fetch.
    change (update ctx && (gopath ctx || local ctx)
            && (0 <? String.length
                       (GetVcsName (world (begin_download n0 s)) (InstallGopath n0)))%nat)
      with (updates_by_vcs ctx n s).
    rewrite Hvcs. simpl. unfold conclude, set_world, add_call. simpl.
    by destruct (IsGetDeps n). }
  eexists. split; [exact Hdp|]. split; [|done].
  rewrite (visit_reaches _ _ _ _ _ Hr). cbv zeta. rewrite Hmark.
  unfold placeholder. rewrite Hu. by rewrite Hdp.
Qed.

End Installed.

(** * The entry points *)

(** ** Strings *)

Lemma prefix_one_char (c d : Ascii.ascii) (s : string) :
  String.prefix (String c "") (String d s)
  = if Ascii.ascii_dec c d then true else false.
Proof. simpl. destruct (Ascii.ascii_dec c d); [by destruct s|done]. Qed.

Lemma Index_first (sep : Ascii.ascii) (p rest : string) :
  Index p (String sep "") = None ->
  Index (p +:+ String sep rest) (String sep "") = Some (String.length p).
Proof.
  unfold Index. induction p as [|c p IH]; intros Hp.
  - change ("" +:+ String sep rest) with (String sep rest).
    unfold String.index. rewrite prefix_one_char.
    by destruct (Ascii.ascii_dec sep sep).
  - change (String c p +:+ String sep rest) with (String c (p +:+ String sep rest)).
    revert Hp. unfold String.index; fold String.index.
    rewrite !prefix_one_char. destruct (Ascii.ascii_dec sep c); [done|].
    destruct (String.index 0 (String sep "") p) eqn:Hi; [done|]. intros _.
    by rewrite IH.
Qed.

Lemma substring_all (s : string) : String.substring 0 (String.length s) s = s.
Proof. induction s as [|c s IH]; simpl; by rewrite ?IH. Qed.

Lemma substring_before (p s : string) :
  String.substring 0 (String.length p) (p +:+ s) = p.
Proof.
  induction p as [|c p IH]; simpl; [by destruct s|]. by rewrite IH.
Qed.

Lemma substring_after (p : string) (c : Ascii.ascii) (s : string) :
  String.substring (String.length p + 1)
                   (String.length (p +:+ String c s) - (String.length p + 1))
                   (p +:+ String c s)
  = s.
Proof.
  induction p as [|d p IH]; simpl.
  - rewrite Nat.sub_0_r. apply substring_all.
  - apply IH.
Qed.

Section EntryFacts.

Context {W : Type} {E : Env W}.
Variable GetPkgFullPath : string -> string.
Variable genGopmfile : W -> W * ConfigFile * string * list string.
Variable setup : Ctx -> State W -> State W.
Variable Help : string -> State W -> option (State W).

Lemma arg_nodes_map ctx args :
  arg_nodes GetPkgFullPath ctx args = map (arg_node GetPkgFullPath ctx) args.
Proof.
  unfold arg_nodes.
  assert (H : forall acc,
             fold_left (fun nodes info => nodes ++ [arg_node GetPkgFullPath ctx info])
                       args acc
             = acc ++ map (arg_node GetPkgFullPath ctx) args).
  { induction args as [|a args IH]; intros acc; simpl.
    - by rewrite app_nil_r.
    - by rewrite IH, <- app_assoc. }
  apply H.
Qed.

Lemma manifest_nodes_map ctx gf imports :
  manifest_nodes ctx gf imports = map (manifest_node ctx gf) imports.
Proof.
  unfold manifest_nodes.
  assert (H : forall acc,
             fold_left (fun nodes name => nodes ++ [manifest_node ctx gf name])
                       imports acc
             = acc ++ map (manifest_node ctx gf) imports).
  { induction imports as [|a imports IH]; intros acc; simpl.
    - by rewrite app_nil_r.
    - by rewrite IH, <- app_assoc. }
  apply H.
Qed.

Lemma resolve_name_full pkgPath tp val deps :
  resolve_name GetPkgFullPath pkgPath (NewNode pkgPath tp val deps)
  = NewNode (if Contains pkgPath "/" then pkgPath else GetPkgFullPath pkgPath)
            tp val deps.
Proof.
  unfold resolve_name. destruct (Contains pkgPath "/"); simpl; [done|].
  destruct (String.eqb (GetPkgFullPath pkgPath) pkgPath) eqn:He; simpl; [|done].
  apply String.eqb_eq in He. by rewrite He.
Qed.

(** X11, an argument of [gopm get].  An argument is split at its first
    ["@"]: what comes before is the package path, what comes after, further
    ["@"] included, is the version given to [validPkgInfo]; an argument with
    no ["@"] is an unpinned branch.  A path with a ["/"] is taken as it is;
    a path without is replaced by what the registry gives for it, and keeps
    the version of the argument. *)
Theorem argument_split_at_first_at ctx path ver :
  Index path "@" = None ->
  let full := if Contains path "/" then path else GetPkgFullPath path in
  arg_node GetPkgFullPath ctx (path +:+ "@" +:+ ver)
  = NewNode full (validPkgInfo ver).1 (validPkgInfo ver).2 (negb (download ctx))
  /\ arg_node GetPkgFullPath ctx path
     = NewNode full BRANCH "" (negb (download ctx)).
Proof.
  intros Hp full. split.
  - unfold arg_node.
    change ("@" +:+ ver) with (String (Ascii.ascii_of_nat 64) ver).
    change "@" with (String (Ascii.ascii_of_nat 64) "") in *.
    rewrite (Index_first _ path ver Hp), substring_before, substring_after.
    apply resolve_name_full.
  - unfold arg_node. rewrite Hp. apply resolve_name_full.
Qed.

(** X13, the nodes of a gopmfile.  [getByGopmfile] makes one node per
    import of the project, in order, for the root path of the import, and
    each node is pinned by the gopmfile entry of its own import path: an
    unpinned branch when the entry is missing or empty, and what
    [validPkgInfo] reads in the entry otherwise. *)
Theorem manifest_nodes_pinned_by_own_entry ctx gf imports :
  Forall2
    (fun name n =>
       ImportPath n = GetRootPath name
       /\ IsGetDeps n = negb (download ctx)
       /\ (MustValue gf "deps" (ImportPath n) = ""
           -> Type_ n = BRANCH /\ Value n = "")
       /\ (MustValue gf "deps" (ImportPath n) <> ""
           -> (Type_ n, Value n)
              = validPkgInfo (MustValue gf "deps" (ImportPath n))))
    imports (manifest_nodes ctx gf imports).
Proof.
  rewrite manifest_nodes_map. induction imports as [|name imports IH]; simpl.
  - constructor.
  - constructor; [|done]. unfold manifest_node.
    destruct (0 <? String.length (MustValue gf "deps" (GetRootPath name)))%nat
      eqn:Hl; simpl.
    + split; [done|]. split; [done|]. split.
      * intros He. by rewrite He in Hl.
      * intros _. by destruct (validPkgInfo _).
    + apply length_zero_iff_empty in Hl. split; [done|]. split; [done|].
      split; [done|]. intros Hne. by destruct Hne.
Qed.

(** X14, the checks of [runGet].  When [log.Help] ends the process,
    [runGet] gets to the resolution exactly when at most one of [--local],
    [--gopath] and [--remote] is set and, with no argument, [--download] is
    not set; it then resolves the arguments with [getByPaths], or the
    gopmfile with [getByGopmfile] when there is no argument, in the state
    [setup] leaves, with nothing logged before. *)
Theorem runGet_resolves_iff fuel ctx args (s : State W) :
  (forall msg t, Help msg t = None) ->
  let ok :=
    Nat.b2n (local ctx) + Nat.b2n (gopath ctx) + Nat.b2n (remote ctx) <= 1
    /\ (args = [] -> download ctx = false) in
  (ok ->
   runGet GetPkgFullPath genGopmfile setup Help fuel ctx args s
   = Some (match args with
           | [] => getByGopmfile genGopmfile fuel ctx (setup ctx s)
           | _ => getByPaths GetPkgFullPath fuel ctx args (setup ctx s)
           end))
  /\ (~ ok ->
      runGet GetPkgFullPath genGopmfile setup Help fuel ctx args s = None).
Proof.
  intros Hhelp ok. unfold ok, runGet, check_conflict, conflict_names. split.
  - intros [Hflags Hargs].
    destruct (local ctx), (gopath ctx), (remote ctx); simpl in *; try lia;
      destruct args as [|a args]; try done; by rewrite Hargs.
  - intros Hno.
    destruct (local ctx), (gopath ctx), (remote ctx); simpl in *;
      rewrite ?Hhelp; try done.
    all: destruct args as [|a args];
      [|exfalso; apply Hno; split; [lia|done]].
    all: destruct (download ctx); simpl; rewrite ?Hhelp; [done|].
    all: exfalso; apply Hno; split; [lia|done].
Qed.

End EntryFacts.

(** ** [--download]: the given packages only *)

Section DownloadOnly.

Context {W : Type} {E : Env W}.
Variable GetPkgFullPath : string -> string.

Lemma fetch_deps_flag ctx n (s : State W) :
  fetch_keeps_deps_flag -> IsGetDeps (fetch ctx n s).1.1.2 = IsGetDeps n.
Proof.
  intros [HD HU]. unfold fetch.
  destruct (update ctx && (gopath ctx || local ctx) && _).
  - specialize (HU (world s) n (GetVcsName (world s) (InstallGopath n))).
    by destruct (UpdateByVcs _ _ _) as [[w n'] err].
  - destruct (IsGetDepsOnly n); [done|]. rewrite HD.
    by destruct (IsExist (world s) n).
Qed.

Lemma downloadPackage_no_imports ctx n (s : State W) :
  fetch_keeps_deps_flag -> IsGetDeps n = false ->
  (downloadPackage ctx n s).2 = [].
Proof.
  intros Hk Hn. unfold downloadPackage, conclude.
  pose proof (fetch_deps_flag ctx n (begin_download n s) Hk) as Hf.
  destruct (fetch ctx n (begin_download n s)) as [[[w n'] imports] [e|]];
    simpl in *; [done|]. by rewrite Hf, Hn.
Qed.

Lemma visit_without_deps rec target ctx n (s : State W) :
  fetch_keeps_deps_flag -> IsGetDeps n = false ->
  exists s' l,
    visit rec target ctx n s = Some s'
    /\ calls s' = calls s ++ l
    /\ length l <= 1
    /\ forall c, c ∈ l -> ImportPath c.1 = ImportPath n
                          /\ RootPath c.1 = RootPath n.
Proof.
  intros Hk Hn.
  assert (Hsame : forall s' : State W, calls s' = calls s ->
            exists s'' l, Some s' = Some s'' /\ calls s'' = calls s ++ l
              /\ length l <= 1
              /\ forall c, c ∈ l -> ImportPath c.1 = ImportPath n
                                    /\ RootPath c.1 = RootPath n).
  { intros s' Hc. exists s', []. rewrite app_nil_r. split; [done|].
    split; [done|]. split; [simpl; lia|]. by intros c ?%elem_of_nil. }
  unfold visit.
  case_bool_decide; [by apply Hsame|].
  destruct (IsValidRemotePath (ImportPath n)); simpl; [|by apply Hsame].
  destruct (isSubpackage (RootPath n) target); [by apply Hsame|].
  case_bool_decide; [apply Hsame, note_skip_calls|].
  destruct (negb (update ctx) && IsExist (world s) (mark_deps_only n s)).
  { apply Hsame. destruct (gopath ctx || local ctx); simpl; apply note_skip_calls. }
  set (n0 := mark_deps_only n s).
  assert (Hn0 : IsGetDeps n0 = false).
  { unfold n0, mark_deps_only. by destruct (IsFixed n && _). }
  pose proof (downloadPackage_no_imports ctx n0 (placeholder ctx n0 s) Hk Hn0) as Hi.
  pose proof (downloadPackage_calls ctx n0 (placeholder ctx n0 s)) as Hc.
  rewrite placeholder_calls in Hc.
  destruct (downloadPackage ctx n0 (placeholder ctx n0 s))
    as [[[s1 n1] nod] imports]. simpl in Hi, Hc. subst imports.
  unfold finish_turn. simpl.
  destruct nod as [nod|]; eexists _, [_];
    (split; [done|]); rewrite ?record_success_calls;
    (split; [exact Hc|]); (split; [simpl; lia|]);
    intros c ->%list_elem_of_singleton; simpl; unfold n0;
    by rewrite ImportPath_mark_deps_only, RootPath_mark_deps_only.
Qed.

Lemma walk_without_deps rec target ctx nodes (s : State W) :
  fetch_keeps_deps_flag ->
  (forall n, n ∈ nodes -> IsGetDeps n = false) ->
  exists s' l,
    walk rec target ctx nodes s = Some s'
    /\ calls s' = calls s ++ l
    /\ length l <= length nodes
    /\ forall c, c ∈ l -> exists n, n ∈ nodes
                            /\ ImportPath c.1 = ImportPath n
                            /\ RootPath c.1 = RootPath n.
Proof.
  intros Hk. revert s. induction nodes as [|n nodes IH]; intros s Hall; simpl.
  - exists s, []. rewrite app_nil_r. split; [done|]. split; [done|].
    split; [done|]. by intros c ?%elem_of_nil.
  - destruct (visit_without_deps rec target ctx n s Hk) as (s1 & l1 & -> & Hc1 & Hl1 & Hin1);
      [apply Hall; by left|].
    destruct (IH s1) as (s2 & l2 & -> & Hc2 & Hl2 & Hin2);
      [intros; apply Hall; by right|].
    exists s2, (l1 ++ l2). split; [done|].
    split; [by rewrite Hc2, Hc1, app_assoc|].
    split; [rewrite length_app; simpl; lia|].
    intros c [Hc|Hc]%elem_of_app.
    + exists n. split; [by left|by apply Hin1].
    + destruct (Hin2 c Hc) as (m & Hm & ?). exists m. split; [by right|done].
Qed.

Lemma IsGetDeps_arg_node ctx info :
  IsGetDeps (arg_node GetPkgFullPath ctx info) = negb (download ctx).
Proof.
  unfold arg_node, resolve_name.
  destruct (Index info "@"); destruct (negb (Contains _ "/")); simpl; try done;
    by destruct (negb (String.eqb _ _)).
Qed.

(** X10, [gopm get -d].  With [--download] set and fetches that leave
    [IsGetDeps] alone, [getByPaths] returns without any nested call of
    [downloadPackages]: [downloadPackage] is called at most once per
    argument, each time on the node of an argument, and no import of a
    downloaded package is walked. *)
Theorem download_only_no_children fuel ctx args w record :
  fetch_keeps_deps_flag ->
  download ctx = true ->
  exists s' out,
    getByPaths GetPkgFullPath (S fuel) ctx args (start w record) = Some (s', out)
    /\ length (calls s') <= length args
    /\ forall c, c ∈ calls s' ->
         exists info, info ∈ args
           /\ ImportPath c.1 = ImportPath (arg_node GetPkgFullPath ctx info)
           /\ RootPath c.1 = RootPath (arg_node GetPkgFullPath ctx info).
Proof.
  intros Hk Hd. unfold getByPaths, getPackages. simpl.
  destruct (walk_without_deps (downloadPackages fuel "." ctx) "." ctx
              (arg_nodes GetPkgFullPath ctx args) (start w record) Hk)
    as (s1 & l & -> & Hc & Hl & Hin).
  { intros n. rewrite arg_nodes_map. intros (info & -> & _)%list_elem_of_fmap.
    by rewrite IsGetDeps_arg_node, Hd. }
  simpl in Hc. eexists _, _. split; [done|]. simpl. rewrite Hc.
  split; [by rewrite arg_nodes_map, length_map in Hl|].
  intros c Hcin. destruct (Hin c Hcin) as (n & Hn & Hi & Hr).
  rewrite arg_nodes_map in Hn. apply list_elem_of_fmap in Hn as (info & -> & Hinfo).
  by exists info.
Qed.

End DownloadOnly.

(** ** [--update]: every package asked for is attempted *)

Section UpdateVisits.

Context {W : Type} {E : Env W}.

Lemma visit_update_caches target ctx fuel n (s s' : State W) :
  update ctx = true ->
  ImportPath n <> "C" ->
  IsValidRemotePath (ImportPath n) = true ->
  isSubpackage (RootPath n) target = false ->
  visit (downloadPackages fuel target ctx) target ctx n s = Some s' ->
  RootPath n ∈ downloadCache s'.
Proof.
  intros Hu HC Hv Hs. unfold visit.
  rewrite bool_decide_eq_false_2 by done. rewrite Hv, Hs, Hu. simpl.
  pose proof (RootPath_mark_deps_only n s) as Hroot.
  set (n0 := mark_deps_only n s) in *.
  case_bool_decide as Hc.
  { intros [= <-]. by rewrite note_skip_cache, <- Hroot. }
  pose proof (downloadPackage_cache ctx n0 (placeholder ctx n0 s)) as Hd.
  destruct (downloadPackage ctx n0 (placeholder ctx n0 s))
    as [[[s1 n1] nod] imports]. simpl in Hd. unfold finish_turn.
  destruct (walk_imports _ ctx n1 imports imports s1) as [s2|] eqn:Hw; [|done].
  apply walk_imports_cache_grows in Hw.
  assert (Hin : RootPath n ∈ downloadCache s2).
  { apply Hw. rewrite Hd, <- Hroot. set_solver. }
  destruct nod as [nod|]; intros [= <-]; [by rewrite record_success_cache|done].
Qed.

(** X12, [--update].  Under [--update], at the end of a walk that returns,
    the root of every node of the list that passes the tests (a valid
    remote path, outside the target) is in [downloadCache]: none is skipped
    as installed. *)
Theorem update_visits_every_node target ctx fuel nodes (s s' : State W) n :
  update ctx = true ->
  downloadPackages fuel target ctx nodes s = Some s' ->
  n ∈ nodes ->
  ImportPath n <> "C" ->
  IsValidRemotePath (ImportPath n) = true ->
  isSubpackage (RootPath n) target = false ->
  RootPath n ∈ downloadCache s'.
Proof.
  intros Hu Hrun Hin HC Hv Hs.
  destruct fuel as [|fuel]; [done|].
  revert s Hrun. induction nodes as [|m nodes IH]; intros s Hrun.
  - by apply elem_of_nil in Hin.
  - rewrite downloadPackages_cons in Hrun.
    destruct (visit _ target ctx m s) as [s1|] eqn:Hvisit; [|done].
    apply elem_of_cons in Hin as [->|Hin].
    + apply (cache_grows _ _ _ _ _ _ Hrun).
      by apply (visit_update_caches target ctx fuel m s).
    + by apply (IH Hin s1).
Qed.

End UpdateVisits.

(** * The further properties on examples *)

Lemma demo_keeps_deps_flag (r : Demo.Remote) :
  fetch_keeps_deps_flag (E := Demo.env r).
Proof.
  split; [|done]. intros w c n. simpl. unfold Demo.fetch_demo.
  destruct (Demo.broken r (RootPath n)); [done|].
  by destruct (IsEmptyVal n && bool_decide (Revision n = "")).
Qed.

Section MoreOnTree.

#[local] Existing Instance Demo.tree_env.

(** X3 on an example: [a/x] and [b/y] are downloaded, [c/z] fails and
    [fmt] is rejected. *)
Lemma downloads_counted_at_end_witness :
  let run := downloadPackages 4 "." Demo.flags0
               [Demo.node "github.com/a/x"; Demo.node "fmt"] Demo.fresh in
  let s' := default Demo.fresh run in
  downloadCount s' = 2%Z /\ failConut s' = 2%Z /\ length (calls s') = 3
  /\ rejections (logs s') = 1.
Proof.
  intros run s'.
  destruct (downloads_counted_at_end "." Demo.flags0 4
              [Demo.node "github.com/a/x"; Demo.node "fmt"] ∅ ∅ s')
    as (Hd & _ & Hsum).
  - apply some_default. vm_compute. reflexivity.
  - assert (Hok : ok_calls (calls s') = 2) by (vm_compute; reflexivity).
    assert (Hl : length (calls s') = 3) by (vm_compute; reflexivity).
    assert (Hr : rejections (logs s') = 1) by (vm_compute; reflexivity).
    rewrite Hok in Hd. rewrite Hl, Hr in Hsum.
    split; [exact Hd|]. split; [|by split].
    assert (Hs : (downloadCount s' + failConut s')%Z = 4%Z)
      by (apply Hsum; vm_compute; discriminate).
    rewrite Hd in Hs. apply (Z.add_reg_l 2%Z). exact Hs.
Defined.

(** X4 on an example: three calls, three roots visited. *)
Lemma cache_is_called_roots_witness :
  let run := downloadPackages 4 "." Demo.flags0
               [Demo.node "github.com/a/x"; Demo.node "fmt"] Demo.fresh in
  let s' := default Demo.fresh run in
  downloadCache s' = list_to_set (call_roots s')
  /\ size (downloadCache s') = 3.
Proof.
  intros run s'.
  destruct (cache_is_called_roots "." Demo.flags0 4
              [Demo.node "github.com/a/x"; Demo.node "fmt"] ∅ ∅ s') as [He Hs].
  - apply some_default. vm_compute. reflexivity.
  - split; [exact He|]. rewrite Hs. vm_compute. reflexivity.
Defined.

(** X5 on an example: [b/y] and [c/z] are met again under [a/x], and
    [a/x] is given twice; each gets one notice. *)
Lemma one_skip_notice_per_root_witness :
  let nodes := [Demo.node "github.com/a/x"; Demo.node "github.com/c/z";
                Demo.node "github.com/a/x"] in
  let run := downloadPackages 4 "." Demo.flags0 nodes Demo.fresh in
  let s' := default Demo.fresh run in
  skip_notices (logs s') = size (skipCache s')
  /\ skip_notices (logs s') = 3
  /\ "github.com/a/x" ∈ skipCache s'.
Proof.
  intros nodes run s'.
  destruct (one_skip_notice_per_root "." Demo.flags0 4 nodes ∅ ∅ s')
    as (Hn & Htwice & _).
  - apply some_default. vm_compute. reflexivity.
  - split; [exact Hn|]. split; [vm_compute; reflexivity|].
    apply (Htwice [] (Demo.node "github.com/a/x") [Demo.node "github.com/c/z"]
             (Demo.node "github.com/a/x") []); try reflexivity; discriminate.
Defined.

(** X6 on an example: the entry of a package that is not part of the run
    is as it was. *)
Lemma record_changes_only_for_downloaded_roots_witness :
  let s := start (∅ : gset string) {[("github.com/q/other", "value") := "r9"]} in
  let run := downloadPackages 4 "." Demo.flags0 [Demo.node "github.com/a/x"] s in
  let s' := default s run in
  LocalNodes s' !! ("github.com/q/other", "value") = Some "r9".
Proof.
  intros s run s'.
  destruct (record_changes_only_for_downloaded_roots "." Demo.flags0 4
              [Demo.node "github.com/a/x"] s s') as (Hf & _ & _).
  - apply demo_keeps_root.
  - apply some_default. vm_compute. reflexivity.
  - rewrite Hf; [vm_compute; reflexivity|]. right. right.
    apply (bool_decide_eq_false_1 ("github.com/q/other" ∈ downloadCache s')).
    vm_compute. reflexivity.
Defined.

End MoreOnTree.

Section MoreOnPlain.

#[local] Existing Instance Demo.plain_env.

(** X8 on an example: [a/x] is in the shared repository. *)
Lemma installed_package_skipped_witness :
  let n := Demo.node "github.com/a/x" in
  let s := start Demo.installed ∅ in
  downloadPackages 1 "." Demo.flags0 [n] s
  = Some (skip_installed Demo.flags0 n s)
  /\ calls (skip_installed Demo.flags0 n s) = [].
Proof.
  intros n s.
  destruct (installed_package_skipped "." Demo.flags0 0 n [] s)
    as (Hrun & Hc & _);
    [reflexivity | discriminate | reflexivity | reflexivity
    | apply not_elem_of_empty | reflexivity |].
  split; [exact Hrun | exact Hc].
Defined.

(** X9 on an example: [a/x] at the tag [v1] is installed. *)
Lemma fixed_installed_not_fetched_witness :
  let n := Demo.node_at "github.com/a/x" TAG "v1" in
  let s := start Demo.installed ∅ in
  let r := downloadPackage Demo.flags_u (with_IsGetDepsOnly true n) s in
  r.1.2 = Some (with_IsGetDepsOnly true n) /\ world r.1.1.1 = Demo.installed.
Proof.
  intros n s r.
  destruct (fixed_installed_not_fetched (fun _ _ => None) "." Demo.flags_u n s)
    as (s1 & Hdp & _ & Hw & _);
    [reflexivity | vm_compute; reflexivity | reflexivity
    | reflexivity | reflexivity |].
  unfold r. rewrite Hdp. simpl. split; [reflexivity | exact Hw].
Defined.

(** X10 on an example: two arguments, at most two calls. *)
Lemma download_only_no_children_witness :
  exists s' out,
    getByPaths DemoEntry.registry 1 DemoEntry.flags_d
               ["github.com/a/x"; "beego"] Demo.fresh = Some (s', out)
    /\ length (calls s') <= 2.
Proof.
  destruct (download_only_no_children DemoEntry.registry 0 DemoEntry.flags_d
              ["github.com/a/x"; "beego"] ∅ ∅) as (s' & out & Hrun & Hl & _);
    [apply demo_keeps_deps_flag | reflexivity |].
  exists s', out. split; [exact Hrun | exact Hl].
Defined.

(** X11 on an example: a short name with a version that has an ["@"]. *)
Lemma argument_split_at_first_at_witness :
  arg_node DemoEntry.registry Demo.flags0 "beego@tag:v1.0@rc"
  = NewNode "github.com/astaxie/beego" TAG "v1.0@rc" true.
Proof.
  exact (proj1 (argument_split_at_first_at DemoEntry.registry Demo.flags0
                  "beego" "tag:v1.0@rc" eq_refl)).
Defined.

(** X12 on an example: under [--update], an installed package is visited. *)
Lemma update_visits_every_node_witness :
  let s := start Demo.installed (Demo.record "r0") in
  let run := downloadPackages 2 "." Demo.flags_u [Demo.node "github.com/a/x"] s in
  "github.com/a/x" ∈ downloadCache (default s run).
Proof.
  intros s run.
  apply (update_visits_every_node "." Demo.flags_u 2
           [Demo.node "github.com/a/x"] s (default s run)
           (Demo.node "github.com/a/x"));
    [reflexivity | apply some_default; vm_compute; reflexivity
    | apply list_elem_of_singleton; reflexivity | discriminate
    | reflexivity | reflexivity].
Defined.

(** X14 on an example: [--local --remote] ends in [log.Help]. *)
Lemma runGet_resolves_iff_witness :
  runGet DemoEntry.registry DemoEntry.gen DemoEntry.no_setup DemoEntry.help_exits
         3 DemoEntry.flags_lr ["github.com/a/x"] Demo.fresh
  = None.
Proof.
  apply (proj2 (runGet_resolves_iff DemoEntry.registry DemoEntry.gen
                  DemoEntry.no_setup DemoEntry.help_exits 3 DemoEntry.flags_lr
                  ["github.com/a/x"] Demo.fresh (fun _ _ => eq_refl))).
  intros [H _]. simpl in H. lia.
Defined.

End MoreOnPlain.
